(** * LoRA-One: adapter initialisation and calibration engine of [run_exp.py]

    A shallow embedding of the calibration and initialisation functions of
    [run_exp.py] ([temporary_weights], [search_eta], [estimate_gradient],
    [reinit_lora_modules]) together with the properties the specification
    states about them.

    Conventions.
    - Python floats are IEEE binary64 numbers: they are modelled by Rocq's
      primitive floats, whose comparison and arithmetic are the IEEE ones
      (a comparison with NaN is false).
    - A Python call either returns or raises; a function that mutates the
      model returns its outcome together with the model as it is left
      behind, so that the state after a raised error can be inspected.
    - [model.named_parameters()] is an ordered sequence of (name, parameter)
      pairs; PyTorch yields every name once. *)

From Stdlib Require Import Floats ZArith Lia Ascii String.
From stdpp Require Import gmap strings list sorting.

Open Scope string_scope.
Open Scope list_scope.

(** Decimal literals denote the nearest binary64 number, as in Python. *)
Set Warnings "-inexact-float".

(** ** Python outcomes *)

Module Py.

Inductive exn : Type :=
  | ValueError (msg : string)
  | KeyError (key : string)
  | UnboundLocalError (var : string)
  | AttributeError (attr : string)
  | IndexError
  | ZeroDivisionError
  | RuntimeError (msg : string).

Inductive outcome (A : Type) : Type :=
  | Returned (a : A)
  | Raised (e : exn).
Arguments Returned {A} a.
Arguments Raised {A} e.

(** [float(n)] for a non-negative Python int. *)
Definition float_of_nat (n : nat) : float :=
  PrimFloat.of_uint63 (Uint63.of_Z (Z.of_nat n)).

(** [float('inf')] *)
Definition inf : float := infinity.

End Py.
Import Py.

(** ** The model as the calibration code sees it *)

Section Calibration.

(** Tensors are opaque to the calibration code: it only clones them, adds
    them, divides them by a count and subtracts a scaled delta. *)
Context {tensor example output : Type}.

(** [data -= eta * delta.to(device)], the result of the in-place update *)
Variable sub_scaled : float -> tensor -> tensor -> tensor.
(** [acc += g] on gradient tensors *)
Variable tadd : tensor -> tensor -> tensor.
(** [g /= num] *)
Variable tdiv : tensor -> nat -> tensor.
(** [model( **batch )]: depends on the parameter values and the batch *)
Variable forward : list (string * tensor) -> list example -> outcome output.
(** [outputs.loss.item()] *)
Variable loss_item : output -> float.
(** [outputs.loss.backward()]: the gradients autograd delivers, in order *)
Variable backward :
  list (string * tensor) -> output -> outcome (list (string * tensor)).

Record parameter : Type := Parameter_ {
  data : tensor;
  requires_grad : bool;
  grad : option tensor;
  hooks : list nat
}.

Record nn_model : Type := Model {
  named_parameters : list (string * parameter);
  training : bool
}.

Definition names (ps : list (string * parameter)) : list string := ps.*1.

Definition weights (ps : list (string * parameter)) : list (string * tensor) :=
  map (fun np => (np.1, data np.2)) ps.

Definition set_data (d : tensor) (p : parameter) : parameter :=
  {| data := d; requires_grad := requires_grad p; grad := grad p; hooks := hooks p |}.

Definition set_grad (g : option tensor) (p : parameter) : parameter :=
  {| data := data p; requires_grad := requires_grad p; grad := g; hooks := hooks p |}.

Definition set_hooks (hs : list nat) (p : parameter) : parameter :=
  {| data := data p; requires_grad := requires_grad p; grad := grad p; hooks := hs |}.

Definition with_parameters (ps : list (string * parameter)) (m : nn_model) : nn_model :=
  {| named_parameters := ps; training := training m |}.

(** [model.train()] *)
Definition train (m : nn_model) : nn_model :=
  {| named_parameters := named_parameters m; training := true |}.

(** ** [temporary_weights] *)

(** The dict comprehension
    [{name: param.data.clone() for name, param in ... if name in adapted_weights}];
    a later pair overwrites an earlier one with the same name. *)
Fixpoint save_original (adapted_weights : gmap string tensor)
    (ps : list (string * parameter)) (acc : gmap string tensor) : gmap string tensor :=
  match ps with
  | [] => acc
  | (name, param) :: rest =>
      match adapted_weights !! name with
      | Some _ => save_original adapted_weights rest (<[name := data param]> acc)
      | None => save_original adapted_weights rest acc
      end
  end.

(** [for name, param in ...: if name in adapted_weights: param.data -= eta * adapted_weights[name]].
    Every delta is taken to have the shape of its parameter, so that each
    in-place subtraction succeeds. *)
Definition apply_adapted (adapted_weights : gmap string tensor) (eta : float)
    (ps : list (string * parameter)) : list (string * parameter) :=
  map (fun np =>
         match adapted_weights !! np.1 with
         | Some delta => (np.1, set_data (sub_scaled eta delta (data np.2)) np.2)
         | None => np
         end) ps.

(** [for name, param in ...: if name in original_params: param.data.copy_(original_params[name])] *)
Definition restore_original (original_params : gmap string tensor)
    (ps : list (string * parameter)) : list (string * parameter) :=
  map (fun np =>
         match original_params !! np.1 with
         | Some d => (np.1, set_data d np.2)
         | None => np
         end) ps.

(** [with temporary_weights(model, adapted_weights, eta): body].  The
    generator saves, applies, yields inside [try], and restores in
    [finally]: the restore runs whether [body] returns or raises, and the
    outcome of [body] is passed on. *)
Definition temporary_weights {A : Type} (adapted_weights : gmap string tensor)
    (eta : float) (body : nn_model -> outcome A * nn_model) (model : nn_model)
    : outcome A * nn_model :=
  let original_params := save_original adapted_weights (named_parameters model) ∅ in
  let model1 := with_parameters (apply_adapted adapted_weights eta (named_parameters model)) model in
  let '(r, model2) := body model1 in
  (r, with_parameters (restore_original original_params (named_parameters model2)) model2).

(** ** [torch.utils.data.DataLoader(dataset, batch_size=batch_size)] *)

(** The batch sampler fills a batch, yields it when it holds [batch_size]
    examples, and yields the unfinished last batch ([drop_last] is off). *)
Fixpoint batch_sampler (batch_size : nat) (batch : list example) (dataset : list example)
    : list (list example) :=
  match dataset with
  | [] => match batch with [] => [] | _ => [batch] end
  | x :: rest =>
      let batch' := batch ++ [x] in
      if Nat.eqb (length batch') batch_size
      then batch' :: batch_sampler batch_size [] rest
      else batch_sampler batch_size batch' rest
  end.

Definition DataLoader (dataset : list example) (batch_size : nat)
    : outcome (list (list example)) :=
  match batch_size with
  | O => Raised (ValueError
                   "batch_size should be a positive integer value, but got batch_size=0")
  | S _ => Returned (batch_sampler batch_size [] dataset)
  end.

(** [for n, p in model.named_parameters(): if p.grad is not None: p.grad = None] *)
Definition clear_grads (ps : list (string * parameter)) : list (string * parameter) :=
  map (fun np => (np.1, set_grad None np.2)) ps.

(** ** [search_eta] *)

Definition eta_list : list float :=
  [10.0; 5.0; 1.0; 5e-1; 1e-1; 5e-2; 1e-2; 5e-3; 1e-3; 5e-4; 1e-4]%float.

(** The inner loop [for batch in dataloader]: [num += 1], a forward pass,
    [loss += outputs.loss.item()], and the pending gradients are dropped. *)
Fixpoint compute_loss (dataloader : list (list example)) (num : nat) (loss : float)
    (model : nn_model) : outcome (nat * float) * nn_model :=
  match dataloader with
  | [] => (Returned (num, loss), model)
  | batch :: rest =>
      let num := S num in
      match forward (weights (named_parameters model)) batch with
      | Raised e => (Raised e, model)
      | Returned outputs =>
          let loss := (loss + loss_item outputs)%float in
          let model := with_parameters (clear_grads (named_parameters model)) model in
          compute_loss rest num loss model
      end
  end.

(** The block under [with temporary_weights(...)] for one [eta]; the pair
    is ([min_loss], [best_eta]).  [loss] starts as the int [0] and [num] is
    an int, so [loss /= num] raises [ZeroDivisionError] when no batch was
    seen and is a float division otherwise. *)
Definition evaluate_eta (dataset : list example) (batch_size : nat) (eta : float)
    (best : float * option float) (model : nn_model)
    : outcome (float * option float) * nn_model :=
  let model := train model in
  match DataLoader dataset batch_size with
  | Raised e => (Raised e, model)
  | Returned dataloader =>
      match compute_loss dataloader 0 0%float model with
      | (Raised e, model) => (Raised e, model)
      | (Returned (num, loss), model) =>
          match num with
          | O => (Raised ZeroDivisionError, model)
          | S _ =>
              let loss := (loss / float_of_nat num)%float in
              if (loss <? best.1)%float
              then (Returned (loss, Some eta), model)
              else (Returned best, model)
          end
      end
  end.

(** [for eta in eta_list: with temporary_weights(model, named_grad, eta): ...] *)
Fixpoint search_loop (named_grad : gmap string tensor) (dataset : list example)
    (batch_size : nat) (etas : list float) (best : float * option float)
    (model : nn_model) : outcome (float * option float) * nn_model :=
  match etas with
  | [] => (Returned best, model)
  | eta :: rest =>
      match temporary_weights named_grad eta
              (evaluate_eta dataset batch_size eta best) model with
      | (Raised e, model) => (Raised e, model)
      | (Returned best, model) =>
          search_loop named_grad dataset batch_size rest best model
      end
  end.

(** [search_eta(model, dataset, batch_size, **kwargs)]; [named_grads] is
    the keyword argument [kwargs["named_grads"]], [None] when it was not
    passed. *)
Definition search_eta (model : nn_model) (dataset : list example) (batch_size : nat)
    (named_grads : option (gmap string tensor)) : outcome (option float) * nn_model :=
  match named_grads with
  | None => (Raised (KeyError "named_grads"), model)
  | Some named_grad =>
      match search_loop named_grad dataset batch_size eta_list (inf, None) model with
      | (Raised e, model) => (Raised e, model)
      | (Returned best, model) => (Returned best.2, model)
      end
  end.

(** ** [estimate_gradient] *)

(** The closure returned by [get_record_gradient_hook(model, record_dict)]:
    every pending gradient of a trainable parameter is moved into
    [record_dict] (stored the first time, added afterwards) and cleared. *)
Fixpoint record_gradient_hook (ps : list (string * parameter))
    (record_dict : gmap string tensor)
    : list (string * parameter) * gmap string tensor :=
  match ps with
  | [] => ([], record_dict)
  | (n, p) :: rest =>
      match requires_grad p, grad p with
      | true, Some g =>
          let record_dict :=
            match record_dict !! n with
            | None => <[n := g]> record_dict
            | Some acc => <[n := tadd acc g]> record_dict
            end in
          let '(rest', record_dict) := record_gradient_hook rest record_dict in
          ((n, set_grad None p) :: rest', record_dict)
      | _, _ =>
          let '(rest', record_dict) := record_gradient_hook rest record_dict in
          ((n, p) :: rest', record_dict)
      end
  end.

(** Handles of tensor hooks are numbers; a new handle is larger than every
    handle in use. *)
Definition fresh_handle (ps : list (string * parameter)) : nat :=
  S (max_list (mjoin (map (fun np => hooks np.2) ps))).

(** [for name, param in model.named_parameters(): hooks.append(param.register_hook(...))].
    [Tensor.register_hook] raises on a tensor that does not require a
    gradient; the hooks registered before that stay in place. *)
Fixpoint register_hooks (next : nat) (ps : list (string * parameter))
    : outcome (list nat) * list (string * parameter) :=
  match ps with
  | [] => (Returned [], [])
  | (name, param) :: rest =>
      if requires_grad param then
        let '(r, rest') := register_hooks (S next) rest in
        (match r with
         | Returned handles => Returned (next :: handles)
         | Raised e => Raised e
         end,
         (name, set_hooks (hooks param ++ [next]) param) :: rest')
      else
        (Raised (RuntimeError "cannot register a hook on a tensor that doesn't require gradient"),
         ps)
  end.

(** [for hook in hooks: hook.remove()] *)
Definition remove_hooks (handles : list nat) (ps : list (string * parameter))
    : list (string * parameter) :=
  map (fun np => (np.1, set_hooks (filter (fun h => h ∉ handles) (hooks np.2)) np.2)) ps.

Fixpoint lookup_parameter (n : string) (ps : list (string * parameter))
    : option parameter :=
  match ps with
  | [] => None
  | (n', p) :: rest => if decide (n' = n) then Some p else lookup_parameter n rest
  end.

(** Autograd stores a delivered gradient in [p.grad], adding to a pending one. *)
Definition accumulate_grad (n : string) (g : tensor) (ps : list (string * parameter))
    : list (string * parameter) :=
  map (fun np =>
         if decide (np.1 = n) then
           (np.1, set_grad (Some (match grad np.2 with
                                  | None => g
                                  | Some g0 => tadd g0 g
                                  end)) np.2)
         else np) ps.

Definition has_hook (handles : list nat) (p : parameter) : bool :=
  existsb (fun h => bool_decide (h ∈ handles)) (hooks p).

(** [outputs.loss.backward()] with the recording hooks in place: for each
    gradient autograd delivers to a trainable parameter, the hook on that
    parameter runs first (with the gradients stored so far), then the
    gradient is stored in [p.grad]. *)
Fixpoint loss_backward (handles : list nat) (delivered : list (string * tensor))
    (ps : list (string * parameter)) (record_dict : gmap string tensor)
    : list (string * parameter) * gmap string tensor :=
  match delivered with
  | [] => (ps, record_dict)
  | (n, g) :: rest =>
      match lookup_parameter n ps with
      | Some p =>
          if requires_grad p then
            let '(ps, record_dict) :=
              if has_hook handles p then record_gradient_hook ps record_dict
              else (ps, record_dict) in
            loss_backward handles rest (accumulate_grad n g ps) record_dict
          else loss_backward handles rest ps record_dict
      | None => loss_backward handles rest ps record_dict
      end
  end.

(** The loop [for batch in dataloader] of [estimate_gradient]. *)
Fixpoint gradient_loop (handles : list nat) (dataloader : list (list example))
    (num : nat) (named_grads : gmap string tensor) (model : nn_model)
    : outcome (nat * gmap string tensor) * nn_model :=
  match dataloader with
  | [] => (Returned (num, named_grads), model)
  | batch :: rest =>
      let num := S num in
      let w := weights (named_parameters model) in
      match forward w batch with
      | Raised e => (Raised e, model)
      | Returned outputs =>
          match backward w outputs with
          | Raised e => (Raised e, model)
          | Returned delivered =>
              let '(ps, named_grads) :=
                loss_backward handles delivered (named_parameters model) named_grads in
              let '(ps, named_grads) := record_gradient_hook ps named_grads in
              gradient_loop handles rest num named_grads
                (with_parameters (clear_grads ps) model)
          end
      end
  end.

Definition estimate_gradient (model : nn_model) (dataset : list example)
    (batch_size : nat) : outcome (gmap string tensor) * nn_model :=
  let model := train model in
  let ps := named_parameters model in
  match register_hooks (fresh_handle ps) ps with
  | (Raised e, ps) => (Raised e, with_parameters ps model)
  | (Returned hooks_, ps) =>
      let model := with_parameters ps model in
      match DataLoader dataset batch_size with
      | Raised e => (Raised e, model)
      | Returned dataloader =>
          match gradient_loop hooks_ dataloader 0 ∅ model with
          | (Raised e, model) => (Raised e, model)
          | (Returned (num, named_grads), model) =>
              let named_grads := (fun g => tdiv g num) <$> named_grads in
              (Returned named_grads,
               with_parameters (remove_hooks hooks_ (named_parameters model)) model)
          end
      end
  end.

(** ** Quantities the properties are stated with *)

(** The parameter values inside the scope opened for [eta]. *)
Definition shifted_weights (adapted_weights : gmap string tensor) (eta : float)
    (w : list (string * tensor)) : list (string * tensor) :=
  map (fun nd =>
         match adapted_weights !! nd.1 with
         | Some delta => (nd.1, sub_scaled eta delta nd.2)
         | None => nd
         end) w.

(** The sum of the batch losses under fixed parameter values. *)
Fixpoint sum_losses (w : list (string * tensor)) (dataloader : list (list example))
    (num : nat) (loss : float) : outcome (nat * float) :=
  match dataloader with
  | [] => Returned (num, loss)
  | batch :: rest =>
      match forward w batch with
      | Raised e => Raised e
      | Returned outputs => sum_losses w rest (S num) (loss + loss_item outputs)%float
      end
  end.

(** The mean calibration loss under fixed parameter values. *)
Definition mean_loss (w : list (string * tensor)) (dataset : list example)
    (batch_size : nat) : outcome float :=
  match DataLoader dataset batch_size with
  | Raised e => Raised e
  | Returned dataloader =>
      match sum_losses w dataloader 0 0%float with
      | Raised e => Raised e
      | Returned (O, _) => Raised ZeroDivisionError
      | Returned (S k, loss) => Returned (loss / float_of_nat (S k))%float
      end
  end.

(** The gradients a parameter named [n] of the model received, in order. *)
Definition received (ps : list (string * parameter))
    (delivered : list (string * tensor)) (n : string) : list tensor :=
  if decide (n ∈ names ps)
  then (filter (fun ng => ng.1 = n) delivered).*2
  else [].

(** The sum of the gradients in the order of accumulation, divided by the
    number of batches; nothing for a parameter without a gradient. *)
Definition mean_of (gs : list tensor) (num : nat) : option tensor :=
  match gs with
  | [] => None
  | g :: rest => Some (tdiv (foldl tadd g rest) num)
  end.

(** Adding a gradient to what was recorded so far: stored the first time,
    added afterwards. *)
Definition add_gradient (acc : option tensor) (g : tensor) : option tensor :=
  Some (match acc with None => g | Some a => tadd a g end).

(** What [record_dict] holds for [n] once the pending gradient of [n], if
    any, has been moved into it. *)
Definition recorded_with_pending (ps : list (string * parameter))
    (record_dict : gmap string tensor) (n : string) : option tensor :=
  match lookup_parameter n ps with
  | Some p =>
      match requires_grad p, grad p with
      | true, Some g => add_gradient (record_dict !! n) g
      | _, _ => record_dict !! n
      end
  | None => record_dict !! n
  end.

(** The parameters have one name each, all are trainable and all carry a
    recording hook of the running call. *)
Definition ready (handles : list nat) (ps : list (string * parameter)) : Prop :=
  NoDup (names ps) /\
  Forall (fun np => requires_grad np.2 = true /\ has_hook handles np.2 = true) ps.

(** [np'] is [np] with one more hook, whose handle is among [handles]. *)
Definition hook_added (handles : list nat) (np np' : string * parameter) : Prop :=
  np'.1 = np.1 /\
  exists h, h ∈ handles /\ np'.2 = set_hooks (hooks np.2 ++ [h]) np.2.

(** The hooks registered on each parameter. *)
Definition hook_table (ps : list (string * parameter)) : list (string * list nat) :=
  map (fun np => (np.1, hooks np.2)) ps.

End Calibration.

Arguments parameter tensor : clear implicits.
Arguments nn_model tensor : clear implicits.

(** What the search has found after the candidates [seen], for mean losses
    given by [L]: the pair ([min_loss], [best_eta]) is still the initial
    one and no loss was below infinity, or [best_eta] is a candidate
    whose loss is [min_loss], no earlier candidate has a loss below or equal
    to it, and no later candidate a loss below it. *)
Definition best_so_far (L : float -> float) (seen : list float)
    (best : float * option float) : Prop :=
  match best.2 with
  | None => best.1 = inf /\ forall e, e ∈ seen -> (L e <? inf)%float = false
  | Some b =>
      best.1 = L b /\
      exists pre post, seen = pre ++ b :: post /\
        (forall e, e ∈ pre -> (L e <=? L b)%float = false) /\
        (forall e, e ∈ post -> (L e <? L b)%float = false)
  end.

(** ** Numbers and matrices of the initialiser *)

Inductive dtype : Type := float16 | bfloat16 | float32.

(** The numbers held by tensors and by the configuration.  The operations
    are those the initialiser applies to them; [rpow x e] is [x ** e] and
    [rcast] is the rounding of a conversion [.to(dtype)]. *)
Class Scalar (R : Type) : Type := {
  rzero : R;
  rone : R;
  radd : R -> R -> R;
  rsub : R -> R -> R;
  rmul : R -> R -> R;
  rdiv : R -> R -> R;
  rneg : R -> R;
  rabs : R -> R;
  rsqrt : R -> R;
  rpow : R -> float -> R;
  rlt : R -> R -> bool;
  rof_nat : nat -> R;
  rcast : dtype -> R -> R
}.


Section Matrices.

Context {R : Type} `{Scalar R}.

Definition vector : Type := list R.
Definition matrix : Type := list (list R).

(** [M.shape] of a 2-D tensor *)
Definition shape (M : matrix) : nat * nat := (length M, length (hd [] M)).


Definition mmap (f : R -> R) (M : matrix) : matrix := map (map f) M.

(** [M.T] *)
Definition transpose (M : matrix) : matrix :=
  map (fun j => map (fun row => nth j row rzero) M) (seq 0 (length (hd [] M))).

(** [M[lo:hi, :]] *)
Definition slice_rows (lo hi : nat) (M : matrix) : matrix := take (hi - lo) (drop lo M).

(** [M[:, lo:hi]] *)
Definition slice_cols (lo hi : nat) (M : matrix) : matrix :=
  map (fun row => take (hi - lo) (drop lo row)) M.

(** [M[i, j]] *)
Definition entry (i j : nat) (M : matrix) : option R := M !! i ≫= fun row => row !! j.

(** [M * c], [M / c] and [-M] with a number [c] *)
Definition mscale (M : matrix) (c : R) : matrix := mmap (fun x => rmul x c) M.
Definition mdivide (M : matrix) (c : R) : matrix := mmap (fun x => rdiv x c) M.
Definition mneg (M : matrix) : matrix := mmap rneg M.

(** [c * M] *)
Definition scale_left (c : R) (M : matrix) : matrix := mmap (fun x => rmul c x) M.

(** [M * v]: the vector is broadcast along the rows *)
Definition mul_rowwise (M : matrix) (v : vector) : matrix :=
  map (fun row => zip_with rmul row v) M.

Definition vsum (v : vector) : R := foldl radd rzero v.

(** [v.mean()] *)
Definition vmean (v : vector) : R := rdiv (vsum v) (rof_nat (length v)).

(** [B @ A] *)
Definition matmul (B A : matrix) : matrix :=
  map (fun row => map (fun col => vsum (zip_with rmul row col)) (transpose A)) B.

(** [torch.diag(v)] *)
Definition diag (v : vector) : matrix :=
  imap (fun i x => imap (fun j _ => if Nat.eqb i j then x else rzero) v) v.

(** [W - O] and [W + O] on matrices of one shape *)
Definition msub (W O : matrix) : matrix := zip_with (zip_with rsub) W O.
Definition madd (W O : matrix) : matrix := zip_with (zip_with radd) W O.

Definition rmax (a b : R) : R := if rlt a b then b else a.

(** [torch.max(torch.abs(M))] *)
Definition max_abs (M : matrix) : R := foldl rmax rzero (map rabs (mjoin M)).

(** [torch.norm(M, p=2, dim=1)] *)
Definition row_norms (M : matrix) : vector :=
  map (fun row => rsqrt (vsum (map (fun x => rmul x x) row))) M.

(** [M.to(dtype)] *)
Definition to_dtype (d : dtype) (M : matrix) : matrix := mmap (rcast d) M.

(** [torch.nn.init.zeros_] *)
Definition zeros_like (M : matrix) : matrix := mmap (fun _ => rzero) M.

End Matrices.

Arguments vector R : clear implicits.
Arguments matrix R : clear implicits.

(** ** State and errors of the initialiser *)

Module St.

Definition M (S A : Type) : Type := S -> outcome A * S.

Definition ret {S A} (a : A) : M S A := fun s => (Returned a, s).
Definition raise {S A} (e : exn) : M S A := fun s => (Raised e, s).
Definition bind {S A B} (k : A -> M S B) (c : M S A) : M S B :=
  fun s => match c s with
           | (Returned a, s') => k a s'
           | (Raised e, s') => (Raised e, s')
           end.
Definition get {S} : M S S := fun s => (Returned s, s).
Definition modify {S} (f : S -> S) : M S unit := fun s => (Returned tt, f s).

(** Reading a local variable that may not have been assigned yet. *)
Definition local {S A} (var : string) (v : option A) : M S A :=
  match v with
  | Some a => ret a
  | None => raise (UnboundLocalError var)
  end.

End St.

#[global] Instance St_ret {S} : MRet (St.M S) := @St.ret S.
#[global] Instance St_bind {S} : MBind (St.M S) := @St.bind S.

(** ** [reinit_lora_modules] *)

(** [".".join(name.split(".")[2:]) + ".weight"] *)
Fixpoint split_dot (s : string) (piece : string) : list string :=
  match s with
  | EmptyString => [piece]
  | String c rest =>
      if Ascii.eqb c "."%char then piece :: split_dot rest ""
      else split_dot rest (String.append piece (String c ""))
  end.

Definition grad_name_of (name : string) : string :=
  String.append (String.concat "." (drop 2 (split_dot name ""))) ".weight".

Section LoraInit.

Context {R : Type} `{Scalar R} {rng : Type}.

(** The in-place initialisers of [torch.nn.init] the code calls. *)
Inductive init_fn : Type :=
  | normal_ (mean std : R)
  | kaiming_uniform_ (a : R)
  | kaiming_normal_ (fan_mode : string)
  | xavier_normal_
  | zeros_
  | orthogonal_.

(** The random initialisers and [torch.svd_lowrank(M, q=.., niter=..)]
    belong to PyTorch; both draw from the global random generator. *)
Variable torch_init : init_fn -> matrix R -> rng -> matrix R * rng.
Variable svd_lowrank :
  matrix R -> nat -> nat -> rng -> (matrix R * vector R * matrix R) * rng.

(** A [LoraLinear] layer: [module.weight], [module.lora_A.default.weight],
    [module.lora_B.default.weight], [module.lora_magnitude_vector.default.weight]
    (present for a DoRA layer) and [module.scaling["default"]]. *)
Record LoraLinear : Type := {
  weight : matrix R;
  lora_A : matrix R;
  lora_B : matrix R;
  lora_magnitude_vector : option (vector R);
  scaling : R
}.

(** [init_config].  [mode], [scale] and [direction] are defined by the
    configuration; [dtype] and [norm_clip] may be absent. *)
Record InitConfig : Type := {
  mode : string;
  init_lora_A : string;
  init_lora_B : string;
  lora_A_std : R;
  lora_B_std : R;
  scale : string;
  stable_gamma : R;
  direction : string;
  dtype_name : option string;
  norm_clip : option bool
}.

(** [peft_conf]: [peft_conf.get("dora", False)] and [peft_conf.lora_alpha] *)
Record PeftConfig : Type := {
  dora : bool;
  lora_alpha : R
}.

Record state : Type := {
  module : LoraLinear;
  generator : rng
}.

Definition set_weight (w : matrix R) : St.M state unit :=
  St.modify (fun s =>
    {| module := {| weight := w; lora_A := lora_A (module s); lora_B := lora_B (module s);
                    lora_magnitude_vector := lora_magnitude_vector (module s);
                    scaling := scaling (module s) |};
       generator := generator s |}).

Definition set_lora_A (a : matrix R) : St.M state unit :=
  St.modify (fun s =>
    {| module := {| weight := weight (module s); lora_A := a; lora_B := lora_B (module s);
                    lora_magnitude_vector := lora_magnitude_vector (module s);
                    scaling := scaling (module s) |};
       generator := generator s |}).

Definition set_lora_B (b : matrix R) : St.M state unit :=
  St.modify (fun s =>
    {| module := {| weight := weight (module s); lora_A := lora_A (module s); lora_B := b;
                    lora_magnitude_vector := lora_magnitude_vector (module s);
                    scaling := scaling (module s) |};
       generator := generator s |}).

Definition set_magnitude (v : option (vector R)) : St.M state unit :=
  St.modify (fun s =>
    {| module := {| weight := weight (module s); lora_A := lora_A (module s);
                    lora_B := lora_B (module s);
                    lora_magnitude_vector := v;
                    scaling := scaling (module s) |};
       generator := generator s |}).

Definition get_module : St.M state LoraLinear :=
  s ← St.get; mret (module s).

(** A call of a [torch.nn.init] function on a tensor *)
Definition run_init (f : init_fn) (M : matrix R) : St.M state (matrix R) :=
  match f with
  | zeros_ => mret (zeros_like M)
  | _ => fun s =>
      let '(M', g) := torch_init f M (generator s) in
      (Returned M', {| module := module s; generator := g |})
  end.

Definition run_svd_lowrank (M : matrix R) (q niter : nat)
    : St.M state (matrix R * vector R * matrix R) :=
  fun s =>
    let '(usv, g) := svd_lowrank M q niter (generator s) in
    (Returned usv, {| module := module s; generator := g |}).

(** [match init_config.lora_A: ...] *)
Definition lora_A_init (init_config : InitConfig) (a_dim : nat) : St.M state init_fn :=
  let k := init_lora_A init_config in
  if String.eqb k "gaussian" then mret (normal_ rzero (lora_A_std init_config))
  else if String.eqb k "kaiming" then mret (kaiming_uniform_ (rsqrt (rof_nat 5)))
  else if String.eqb k "fan_out_kaiming" then mret (kaiming_normal_ "fan_out")
  else if String.eqb k "xavier" then mret xavier_normal_
  else if String.eqb k "zeros" then mret zeros_
  else if String.eqb k "unit" then
    mret (normal_ rzero (rdiv rone (rpow (rof_nat a_dim) 0.5)))
  else if String.eqb k "orthogonal" then mret orthogonal_
  else St.raise (ValueError (String.append "Unknown lora_A initialization: " k)).

(** [match init_config.lora_B: ...] *)
Definition lora_B_init (init_config : InitConfig) (b_dim : nat) : St.M state init_fn :=
  let k := init_lora_B init_config in
  if String.eqb k "gaussian" then mret (normal_ rzero (lora_B_std init_config))
  else if String.eqb k "kaiming" then mret (kaiming_normal_ "fan_in")
  else if String.eqb k "fan_out_kaiming" then mret (kaiming_normal_ "fan_out")
  else if String.eqb k "xavier" then mret xavier_normal_
  else if String.eqb k "zeros" then mret zeros_
  else if String.eqb k "unit" then
    mret (normal_ rzero (rdiv rone (rpow (rof_nat b_dim) 0.5)))
  else if String.eqb k "orthogonal" then mret orthogonal_
  else St.raise (ValueError (String.append "Unknown lora_B initialization: " k)).

(** The branch [init_config.mode == "simple"].  The locals [m] and [n] are
    assigned in the other two branches only, so they are unbound here. *)
Definition init_simple (init_config : InitConfig) (a_dim b_dim : nat) : St.M state unit :=
  let m : option nat := None in
  let n : option nat := None in
  fA ← lora_A_init init_config a_dim;
  md ← get_module;
  a ← run_init fA (lora_A md);
  set_lora_A a;;
  fB ← lora_B_init init_config b_dim;
  md ← get_module;
  b ← run_init fB (lora_B md);
  set_lora_B b;;
  if String.eqb (scale init_config) "stable" then
    let gamma := stable_gamma init_config in
    md ← get_module;
    m ← St.local "m" m;
    set_lora_B (mscale (lora_B md) (rdiv (rpow (rof_nat m) 0.25) (rpow gamma 0.5)));;
    md ← get_module;
    n ← St.local "n" n;
    set_lora_A (mscale (lora_A md) (rdiv (rpow (rof_nat n) 0.25) (rpow gamma 0.5)))
  else mret tt.

(** The branch [init_config.mode == "svd"]. *)
Definition init_svd (init_config : InitConfig) (lora_r : nat) : St.M state unit :=
  md ← get_module;
  '(U, S_, V) ← run_svd_lowrank (to_dtype float32 (weight md)) (4 * lora_r) 4;
  let V := transpose V in
  let '(m, n) := shape (weight md) in
  if String.eqb (scale init_config) "default" then
    let S_ := map (fun x => rdiv x (scaling md)) S_ in
    let sqrtS := map rsqrt (take lora_r S_) in
    set_lora_B (mul_rowwise (slice_cols 0 lora_r U) sqrtS);;
    set_lora_A (transpose (mul_rowwise (transpose (slice_rows 0 lora_r V)) sqrtS))
  else if String.eqb (scale init_config) "stable" then
    let gamma := stable_gamma init_config in
    set_lora_B (mdivide (mscale (slice_cols 0 lora_r U) (rpow (rof_nat m) 0.25))
                        (rpow gamma 0.5));;
    set_lora_A (mdivide (mscale (slice_rows 0 lora_r V) (rpow (rof_nat n) 0.25))
                        (rpow gamma 0.5))
  else if String.eqb (scale init_config) "unit" then
    set_lora_B (slice_cols 0 lora_r U);;
    set_lora_A (slice_rows 0 lora_r V)
  else if String.eqb (scale init_config) "normalized" then
    let S_sum := vsum (take lora_r S_) in
    let sqrtS := map rsqrt (take lora_r S_) in
    set_lora_B (mscale (mdivide (mul_rowwise (slice_cols 0 lora_r U) sqrtS) (rsqrt S_sum))
                       (rpow (rof_nat lora_r) 0.5));;
    set_lora_A (transpose
                  (mscale (mdivide (mul_rowwise (transpose (slice_rows 0 lora_r V)) sqrtS)
                                   (rsqrt S_sum))
                          (rpow (rof_nat lora_r) 0.5)))
  else mret tt.

(** The choice of [B] and [A] from the decomposition of the gradient
    ([V] is already transposed); with any other direction neither local is
    assigned. *)
Definition gradient_direction (init_config : InitConfig) (lora_r : nat)
    (U : matrix R) (S_ : vector R) (V : matrix R)
    : St.M state (option (matrix R) * option (matrix R)) :=
  if String.eqb (direction init_config) "LoRA-One" then
    match S_ with
    | [] => St.raise IndexError
    | s0 :: _ =>
        let sqrtS := map rsqrt (take lora_r S_) in
        mret (Some (mdivide (matmul (slice_cols 0 lora_r U) (diag sqrtS)) (rsqrt s0)),
              Some (mdivide (matmul (diag sqrtS) (slice_rows 0 lora_r V)) (rsqrt s0)))
    end
  else if String.eqb (direction init_config) "LoRA-GA" then
    mret (Some (slice_cols lora_r (2 * lora_r) U), Some (slice_rows 0 lora_r V))
  else mret (None, None).

(** The rescaling of [A] and [B] by [init_config.scale] in gradient mode. *)
Definition gradient_scale (init_config : InitConfig) (lora_r : nat) (grads : matrix R)
    (B A : option (matrix R)) : St.M state (option (matrix R) * option (matrix R)) :=
  md ← get_module;
  let scaling_factor := scaling md in
  if String.eqb (scale init_config) "gd" then
    a ← St.local "A" A;
    b ← St.local "B" B;
    mret (Some (mdivide b scaling_factor), Some (mdivide a scaling_factor))
  else if String.eqb (scale init_config) "unit" then
    mret (B, A)
  else if String.eqb (scale init_config) "stable" then
    if String.eqb (direction init_config) "LoRA-One" then
      let gamma := stable_gamma init_config in
      b ← St.local "B" B;
      a ← St.local "A" A;
      mret (Some (mdivide b (rpow gamma 0.5)), Some (mdivide a (rpow gamma 0.5)))
    else
      let '(m, n) := shape grads in
      let gamma := stable_gamma init_config in
      b ← St.local "B" B;
      a ← St.local "A" A;
      mret (Some (mdivide (mscale b (rpow (rof_nat m) 0.25)) (rpow gamma 0.5)),
            Some (mdivide (mscale a (rpow (rof_nat m) 0.25)) (rpow gamma 0.5)))
  else if String.eqb (scale init_config) "weightS" then
    '(_, S_, _) ← run_svd_lowrank (to_dtype float32 (weight md)) (4 * lora_r) 4;
    let S_ := map (fun x => rdiv x (scaling md)) S_ in
    let avg_s := vmean (map rsqrt (take lora_r S_)) in
    (* [.to(A.device)] reads [A] before [B] is read *)
    a ← St.local "A" A;
    b ← St.local "B" B;
    mret (Some (mscale b avg_s), Some (mscale a avg_s))
  else mret (B, A).

(** The branch [init_config.mode == "gradient"]. *)
Definition init_gradient (name : string) (init_config : InitConfig)
    (peft_conf : PeftConfig) (named_grads : option (gmap string (matrix R)))
    (lora_r : nat) : St.M state unit :=
  named_grad ← match named_grads with
               | Some d => mret d
               | None => St.raise (KeyError "named_grads")
               end;
  let grad_name := grad_name_of name in
  grads ← match named_grad !! grad_name with
          | Some g => mret g
          | None => St.raise (KeyError grad_name)
          end;
  '(U, S_, V) ← (if String.eqb (direction init_config) "LoRA-One"
                then run_svd_lowrank (mneg (to_dtype float32 grads)) 512 16
                else run_svd_lowrank (to_dtype float32 grads) 512 16);
  let V := transpose V in
  '(B, A) ← gradient_direction init_config lora_r U S_ V;
  '(B, A) ← gradient_scale init_config lora_r grads B A;
  mag_vec ← (if dora peft_conf then
               md ← get_module;
               b ← St.local "B" B;
               a ← St.local "A" A;
               let V := madd (to_dtype float32 (weight md))
                             (matmul (scale_left (rdiv (lora_alpha peft_conf)
                                                       (rsqrt (rof_nat lora_r))) b) a) in
               mret (Some (row_norms V))
             else mret None);
  b ← St.local "B" B;
  set_lora_B b;;
  a ← St.local "A" A;
  set_lora_A a;;
  if dora peft_conf then
    md ← get_module;
    match lora_magnitude_vector md with
    | Some _ => set_magnitude mag_vec
    | None => St.raise (AttributeError "lora_magnitude_vector")
    end
  else mret tt.

(** Lines 73-214: the three initialisation branches. *)
Definition initialize (name : string) (init_config : InitConfig)
    (peft_conf : PeftConfig) (named_grads : option (gmap string (matrix R)))
    : St.M state unit :=
  md ← get_module;
  let lora_r := Nat.min (shape (lora_A md)).1 (shape (lora_A md)).2 in
  let a_dim := Nat.max (shape (lora_A md)).1 (shape (lora_A md)).2 in
  let b_dim := Nat.max (shape (lora_B md)).1 (shape (lora_B md)).2 in
  if String.eqb (mode init_config) "simple" then init_simple init_config a_dim b_dim
  else if String.eqb (mode init_config) "svd" then init_svd init_config lora_r
  else if String.eqb (mode init_config) "gradient" then
    init_gradient name init_config peft_conf named_grads lora_r
  else mret tt.

(** The casts at the head of the final [with torch.no_grad()] block. *)
Definition cast_factors (init_config : InitConfig) (peft_conf : PeftConfig)
    : St.M state unit :=
  md ← get_module;
  if dora peft_conf then
    set_lora_A (to_dtype float16 (lora_A md));;
    set_lora_B (to_dtype float16 (lora_B md));;
    match lora_magnitude_vector md with
    | Some v => set_magnitude (Some (map (rcast float16) v))
    | None => St.raise (AttributeError "lora_magnitude_vector")
    end
  else
    match dtype_name init_config with
    | None => mret tt
    | Some d =>
        if String.eqb d "bf16" then
          set_lora_A (to_dtype bfloat16 (lora_A md));;
          set_lora_B (to_dtype bfloat16 (lora_B md))
        else if String.eqb d "fp32" then
          set_lora_A (to_dtype float32 (lora_A md));;
          set_lora_B (to_dtype float32 (lora_B md))
        else mret tt
    end.

(** [scaling * (B @ A)] as the code computes it: [offset = B @ A] followed
    by [offset *= scaling_factor]. *)
Definition lora_offset (md : LoraLinear) : matrix R :=
  mscale (matmul (lora_B md) (lora_A md)) (scaling md).

(** The clipping test: [norm_clip] is set and [ratio < 1]. *)
Definition clip_ratio (md : LoraLinear) : R :=
  rdiv (max_abs (weight md)) (max_abs (lora_offset md)).

Definition clip_triggers (init_config : InitConfig) (md : LoraLinear) : bool :=
  match norm_clip init_config with
  | Some true => rlt (clip_ratio md) rone
  | _ => false
  end.

(** The subtraction of the offset at the end of the block, on a layer whose
    factors have the shapes [out x r] and [r x in] for an [out x in]
    weight: there [B @ A] is defined and the operands of
    [module.weight.data -= offset] have one shape, so the [except] branch
    around it is not entered.  The properties of the subtraction state
    these shapes as hypotheses. *)
Definition subtract_offset (init_config : InitConfig) : St.M state unit :=
  if String.eqb (direction init_config) "LoRA-One" then mret tt
  else
    md ← get_module;
    let offset := lora_offset md in
    offset ← (if clip_triggers init_config md then
                let ratio := clip_ratio md in
                set_lora_A (mscale (lora_A md) (rpow ratio 0.5));;
                set_lora_B (mscale (lora_B md) (rpow ratio 0.5));;
                mret (mscale offset ratio)
              else mret offset);
    set_weight (msub (weight md) offset).

(** Lines 216-268 *)
Definition finalize (init_config : InitConfig) (peft_conf : PeftConfig)
    : St.M state unit :=
  cast_factors init_config peft_conf;;
  subtract_offset init_config.

Definition reinit_lora_modules (name : string) (init_config : InitConfig)
    (peft_conf : PeftConfig) (named_grads : option (gmap string (matrix R)))
    : St.M state unit :=
  initialize name init_config peft_conf named_grads;;
  finalize init_config peft_conf.

End LoraInit.

Arguments init_fn R : clear implicits.
Arguments LoraLinear R : clear implicits.
Arguments InitConfig R : clear implicits.
Arguments PeftConfig R : clear implicits.
Arguments state R rng : clear implicits.

(** A step of the initialiser that leaves the base weight and the scaling
    of the layer as they are, whether it returns or raises. *)
Definition keeps_base_weight {R rng A : Type} (c : St.M (state R rng) A) : Prop :=
  forall s, weight (module (c s).2) = weight (module s) /\
            scaling (module (c s).2) = scaling (module s).

(** The distribution names [match init_config.lora_A] and
    [match init_config.lora_B] accept. *)
Definition known_distributions : list string :=
  ["gaussian"; "kaiming"; "fan_out_kaiming"; "xavier"; "zeros"; "unit"; "orthogonal"].

(** ** The loop over the modules: [reinit_lora] *)

Section LoraModel.

Context {R : Type} `{Scalar R} {rng : Type}.
Variable torch_init : init_fn R -> matrix R -> rng -> matrix R * rng.
Variable svd_lowrank :
  matrix R -> nat -> nat -> rng -> (matrix R * vector R * matrix R) * rng.

(** [model.named_modules()] as [reinit_lora] uses it: a module is a
    [LoraLinear] layer, or a module the loop passes over ([None]). *)
Fixpoint reinit_lora_loop (init_config : InitConfig R) (peft_conf : PeftConfig R)
    (named_grads : option (gmap string (matrix R)))
    (named_modules : list (string * option (LoraLinear R))) (g : rng)
    : outcome unit * (list (string * option (LoraLinear R)) * rng) :=
  match named_modules with
  | [] => (Returned tt, ([], g))
  | (name, None) :: rest =>
      let '(r, (rest', g')) :=
        reinit_lora_loop init_config peft_conf named_grads rest g in
      (r, ((name, None) :: rest', g'))
  | (name, Some layer) :: rest =>
      match reinit_lora_modules torch_init svd_lowrank name init_config peft_conf
              named_grads {| module := layer; generator := g |} with
      | (Raised e, s') =>
          (Raised e, ((name, Some (module s')) :: rest, generator s'))
      | (Returned _, s') =>
          let '(r, (rest', g')) :=
            reinit_lora_loop init_config peft_conf named_grads rest (generator s') in
          (r, ((name, Some (module s')) :: rest', g'))
      end
  end.

(** [reinit_lora(model, init_config, peft_conf, **kwargs)] returns the model. *)
Definition reinit_lora (model : list (string * option (LoraLinear R)))
    (init_config : InitConfig R) (peft_conf : PeftConfig R)
    (named_grads : option (gmap string (matrix R))) (g : rng)
    : outcome (list (string * option (LoraLinear R)))
      * (list (string * option (LoraLinear R)) * rng) :=
  match reinit_lora_loop init_config peft_conf named_grads model g with
  | (Returned _, (model', g')) => (Returned model', (model', g'))
  | (Raised e, st) => (Raised e, st)
  end.

(** The base weights of the [LoraLinear] layers of a model, by name. *)
Definition base_weights (model : list (string * option (LoraLinear R)))
    : list (string * option (matrix R)) :=
  map (fun nm => (nm.1, weight <$> nm.2)) model.

End LoraModel.

(** ** The search for the linear modules *)

(** [sub in s] on Python strings *)
Fixpoint contains (sub s : string) : bool :=
  if String.prefix sub s then true
  else match s with
       | EmptyString => false
       | String _ rest => contains sub rest
       end.

(** [name.split(".")[-1]] *)
Definition last_component (name : string) : string :=
  List.last (split_dot name "") "".

(** What the two searches look at in a module: whether it is a
    [torch.nn.Linear], and then the shape of its weight. *)
Inductive module_class : Type :=
  | TorchLinear (out_features in_features : nat)
  | OtherClass.

Definition output_layer_names : list string := ["lm_head"; "embed_tokens"].

(** [isinstance(module, linear_cls) and not any([output_layer in name ...])] *)
Definition is_target_linear (name : string) (module : module_class) : bool :=
  match module with
  | TorchLinear _ _ => negb (existsb (fun output_layer => contains output_layer name)
                                     output_layer_names)
  | OtherClass => false
  end.

(** The loop of [find_all_linear_modules] over [model.named_modules()],
    with the set [module_names] built so far. *)
Fixpoint collect_linear_modules (named_modules : list (string * module_class))
    (module_names : gset string) : gset string :=
  match named_modules with
  | [] => module_names
  | (name, module) :: rest =>
      if is_target_linear name module
      then collect_linear_modules rest ({[last_component name]} ∪ module_names)
      else collect_linear_modules rest module_names
  end.

(** [find_all_linear_modules]: the names are collected in a set; the list
    that is returned holds each of them once, in no fixed order. *)
Definition find_all_linear_modules (named_modules : list (string * module_class))
    : gset string :=
  collect_linear_modules named_modules ∅.

(** [find_hidden_state_size]: [min(module.weight.shape)] of the first
    linear module, [None] without one. *)
Fixpoint find_hidden_state_size (named_modules : list (string * module_class))
    : option nat :=
  match named_modules with
  | [] => None
  | (_, TorchLinear out_features in_features) :: _ =>
      Some (Nat.min out_features in_features)
  | (_, OtherClass) :: rest => find_hidden_state_size rest
  end.

(** ** The calibration subset of [run_exp] *)

(** [train_set[: cfg.init.bsz * cfg.init.iters]] on a list *)
Definition calibration_subset {A : Type} (train_set : list A) (bsz iters : nat)
    : list A :=
  take (bsz * iters) train_set.

(** * Concrete layers and models *)

(** A model with two scalar parameters whose tensors are binary64 numbers. *)
Module Toy.

Definition sub_scaled (eta delta d : float) : float := (d - eta * delta)%float.

Definition tdiv (g : float) (num : nat) : float := (g / float_of_nat num)%float.

Definition model : nn_model float :=
  Model
    [("w", Parameter_ 1%float true None []);
     ("b", Parameter_ 0.25%float true None [7])]
    false.

Definition deltas : gmap string float := {["w" := 2%float]}.

(** A block that overwrites every parameter and then fails. *)
Definition failing_block (m : nn_model float) : outcome unit * nn_model float :=
  (Raised (RuntimeError "evaluation failed"),
   with_parameters (map (fun np => (np.1, set_data 99%float np.2)) (named_parameters m)) m).

(** The loss of a batch is the square of the parameter [w]. *)
Definition forward (w : list (string * float)) (batch : list nat) : outcome float :=
  match list_find (fun nd => nd.1 = "w") w with
  | Some (_, (_, v)) => Returned (v * v)%float
  | None => Raised (KeyError "w")
  end.

Definition loss_item (outputs : float) : float := outputs.

Definition dataset : list nat := [1; 2; 3].

(** The mean loss of the two batches of [dataset] for the candidate [eta]. *)
Definition L (eta : float) : float :=
  let v := (1 - eta * 2)%float in ((0 + v * v + v * v) / 2)%float.

Definition tadd (a g : float) : float := (a + g)%float.

(** Only [w] receives a gradient. *)
Definition backward (w : list (string * float)) (outputs : float)
    : outcome (list (string * float)) :=
  Returned [("w", (outputs + 2)%float)].

(** A forward pass that fails on every batch. *)
Definition failing_forward (w : list (string * float)) (batch : list nat)
    : outcome float :=
  Raised (RuntimeError "CUDA out of memory").

(** The same model with a parameter that is not a number. *)
Definition nan_model : nn_model float :=
  Model [("w", Parameter_ nan true None [])] false.

End Toy.

(** LoRA layers over the integers.  Sums, products and differences are
    exact; quotients, roots and powers round down, and a cast changes
    nothing.  The runs below only use the exact operations. *)
Module IntLayer.

#[global] Instance Z_scalar : Scalar Z := {|
  rzero := 0%Z;
  rone := 1%Z;
  radd := Z.add;
  rsub := Z.sub;
  rmul := Z.mul;
  rdiv := Z.div;
  rneg := Z.opp;
  rabs := Z.abs;
  rsqrt := Z.sqrt;
  rpow := fun x e =>
    if (e =? 0.5)%float then Z.sqrt x
    else if (e =? 0.25)%float then Z.sqrt (Z.sqrt x)
    else x;
  rlt := Z.ltb;
  rof_nat := Z.of_nat;
  rcast := fun _ x => x
|}.

(** No randomness: a random fill writes ones. *)
Definition torch_init (f : init_fn Z) (M : matrix Z) (g : unit) : matrix Z * unit :=
  (mmap (fun _ => 1%Z) M, g).

(** The decomposition of [diag(2, 1)]: [U = V = I], [S = (2, 1)]. *)
Definition svd_lowrank (M : matrix Z) (q niter : nat) (g : unit)
    : (matrix Z * vector Z * matrix Z) * unit :=
  (([[1; 0]; [0; 1]], [2; 1], [[1; 0]; [0; 1]])%Z, g).

(** A rank-1 adapter on a 2 x 2 weight, as PEFT creates it: [B] is zero. *)
Definition layer : state Z unit :=
  {| module := {| weight := [[5; 6]; [7; 8]]%Z;
                  lora_A := [[1; 1]]%Z;
                  lora_B := [[0]; [0]]%Z;
                  lora_magnitude_vector := None;
                  scaling := 2%Z |};
     generator := tt |}.

(** The same layer with factors that are not zero. *)
Definition trained_layer : state Z unit :=
  {| module := {| weight := [[5; 6]; [7; 8]]%Z;
                  lora_A := [[1; 0]]%Z;
                  lora_B := [[0]; [1]]%Z;
                  lora_magnitude_vector := None;
                  scaling := 2%Z |};
     generator := tt |}.

Definition name : string := "base_model.model.layer.q_proj".

Definition grads : gmap string (matrix Z) :=
  {["layer.q_proj.weight" := [[2; 0]; [0; 1]]%Z]}.

Definition peft_conf : PeftConfig Z := {| dora := false; lora_alpha := 2%Z |}.

Definition config (mode_ lora_A_ lora_B_ scale_ direction_ : string) : InitConfig Z :=
  {| mode := mode_; init_lora_A := lora_A_; init_lora_B := lora_B_;
     lora_A_std := 1%Z; lora_B_std := 1%Z; scale := scale_; stable_gamma := 16%Z;
     direction := direction_; dtype_name := None; norm_clip := None |}.

End IntLayer.

(** A layer whose tensors hold binary64 numbers, with the IEEE arithmetic
    on them. *)
Module FloatLayer.

(** The rounding of a binary64 number to the nearest number of a narrower
    format ([prec] bits of precision, exponents below [emax]), ties to
    even; the result is again held as a binary64 number. *)
Definition round_to (prec emax : Z) (x : float) : float :=
  match Prim2SF x with
  | S754_finite s m e => SF2Prim (binary_round prec emax s m e)
  | _ => x
  end.

Definition cast (d : dtype) (x : float) : float :=
  match d with
  | float16 => round_to 11 16 x
  | bfloat16 => round_to 8 128 x
  | float32 => round_to 24 128 x
  end.

(** The powers the initialiser takes are [x ** 0.5] and [x ** 0.25]. *)
#[global] Instance float_scalar : Scalar float := {|
  rzero := 0%float;
  rone := 1%float;
  radd := PrimFloat.add;
  rsub := PrimFloat.sub;
  rmul := PrimFloat.mul;
  rdiv := PrimFloat.div;
  rneg := PrimFloat.opp;
  rabs := PrimFloat.abs;
  rsqrt := PrimFloat.sqrt;
  rpow := fun x e =>
    if (e =? 0.5)%float then PrimFloat.sqrt x
    else if (e =? 0.25)%float then PrimFloat.sqrt (PrimFloat.sqrt x)
    else x;
  rlt := PrimFloat.ltb;
  rof_nat := float_of_nat;
  rcast := cast
|}.

(** No randomness: a random fill writes ones. *)
Definition torch_init (f : init_fn float) (M : matrix float) (g : unit)
    : matrix float * unit :=
  (mmap (fun _ => 1%float) M, g).

(** The decomposition of [diag(2, 1)]: [U = V = I], [S = (2, 1)]. *)
Definition svd_lowrank (M : matrix float) (q niter : nat) (g : unit)
    : (matrix float * vector float * matrix float) * unit :=
  (([[1; 0]; [0; 1]], [2; 1], [[1; 0]; [0; 1]])%float, g).

(** A rank-1 adapter on a 2 x 2 weight with a large scaling factor. *)
Definition layer : state float unit :=
  {| module := {| weight := [[5; 6]; [1; 8]]%float;
                  lora_A := [[1; 1]]%float;
                  lora_B := [[0]; [0]]%float;
                  lora_magnitude_vector := None;
                  scaling := 1e17%float |};
     generator := tt |}.

Definition grads : gmap string (matrix float) :=
  {["layer.q_proj.weight" := [[2; 0]; [0; 1]]%float]}.

Definition peft_conf : PeftConfig float := {| dora := false; lora_alpha := 1e17%float |}.

(** Gradient mode with the direction [LoRA-GA], factors left at unit
    scale, no cast and no clipping. *)
Definition config : InitConfig float :=
  {| mode := "gradient"; init_lora_A := "kaiming"; init_lora_B := "zeros";
     lora_A_std := 1%float; lora_B_std := 1%float; scale := "unit";
     stable_gamma := 16%float; direction := "LoRA-GA"; dtype_name := None;
     norm_clip := None |}.


End FloatLayer.


(** * Properties *)

(** ** Order of binary64 numbers *)

Lemma SFcompare_le_lt_trans x y z c :
  SFcompare x y = Some c -> c <> Gt ->
  SFcompare y z = Some Lt ->
  SFcompare x z = Some Lt.
Proof.
  destruct x as [ | [] | | [] mx ex], y as [ | [] | | [] my ey],
    z as [ | [] | | [] mz ez]; simpl; try congruence.
  all: rewrite ?Pos.compare_cont_spec; simpl.
  all: intros Hxy Hc Hyz; inversion Hxy as [Hxy']; clear Hxy; inversion Hyz as [Hyz']; clear Hyz.
  all: f_equal.
  all: destruct (Z.compare_spec ex ey), (Z.compare_spec ey ez), (Z.compare_spec ex ez);
    subst; try lia; try congruence.
  all: destruct (Pos.compare_spec mx my), (Pos.compare_spec my mz), (Pos.compare_spec mx mz);
    subst; simpl in *; try lia; try congruence.
Qed.

Lemma float_le_lt_trans (x y z : float) :
  (x <=? y)%float = true -> (y <? z)%float = true -> (x <? z)%float = true.
Proof.
  rewrite leb_spec, !ltb_spec. unfold SFleb, SFltb.
  destruct (SFcompare (Prim2SF x) (Prim2SF y)) as [c|] eqn:Hxy; [|discriminate].
  destruct (SFcompare (Prim2SF y) (Prim2SF z)) as [[]|] eqn:Hyz; try discriminate.
  intros Hc _.
  rewrite (SFcompare_le_lt_trans _ _ _ c Hxy); [reflexivity| |exact Hyz].
  intros ->. discriminate.
Qed.

Lemma float_lt_le (x y : float) :
  (x <? y)%float = true -> (x <=? y)%float = true.
Proof.
  rewrite leb_spec, ltb_spec. unfold SFleb, SFltb.
  destruct (SFcompare (Prim2SF x) (Prim2SF y)) as [[]|]; congruence.
Qed.

Lemma SFcompare_refl x : SFcompare x x = Some Eq \/ x = S754_nan.
Proof.
  destruct x as [ | [] | | [] m e]; simpl; auto; left; f_equal.
  all: rewrite Z.compare_refl, Pos.compare_cont_spec, Pos.compare_refl; reflexivity.
Qed.

Lemma float_lt_irrefl (x : float) : (x <? x)%float = false.
Proof.
  rewrite ltb_spec. unfold SFltb.
  destruct (SFcompare_refl (Prim2SF x)) as [-> | ->]; reflexivity.
Qed.

(** A NaN is below nothing. *)
Lemma float_nan_lt (x y : float) : is_nan x = true -> (x <? y)%float = false.
Proof.
  unfold is_nan. rewrite FloatAxioms.eqb_spec, ltb_spec. unfold SFeqb, SFltb.
  destruct (SFcompare_refl (Prim2SF x)) as [-> | ->]; [discriminate | reflexivity].
Qed.

(** ** [temporary_weights] restores what it saved *)

Section TransientMutator.

Context {tensor : Type} (sub_scaled : float -> tensor -> tensor -> tensor).

Implicit Types (ps : list (string * parameter tensor)) (adapted acc : gmap string tensor).

Lemma save_original_unadapted adapted ps acc n :
  adapted !! n = None -> save_original adapted ps acc !! n = acc !! n.
Proof.
  intros Hn. revert acc. induction ps as [|[n' p'] ps IH]; intros acc; simpl; [done|].
  destruct (adapted !! n') eqn:Hn'; rewrite IH; [|done].
  apply lookup_insert_ne. congruence.
Qed.

Lemma save_original_absent adapted ps acc n :
  n ∉ names ps -> save_original adapted ps acc !! n = acc !! n.
Proof.
  revert acc. induction ps as [|[n' p'] ps IH]; intros acc Hn; simpl; [done|].
  unfold names in Hn. simpl in Hn. apply not_elem_of_cons in Hn as [Hne Hn].
  destruct (adapted !! n'); rewrite IH by done; [|done].
  by apply lookup_insert_ne.
Qed.

Lemma save_original_saved adapted ps acc n p :
  NoDup (names ps) -> (n, p) ∈ ps -> is_Some (adapted !! n) ->
  save_original adapted ps acc !! n = Some (data p).
Proof.
  revert acc. induction ps as [|[n' p'] ps IH]; intros acc Hnd Hin Had; simpl.
  { by apply elem_of_nil in Hin. }
  unfold names in Hnd. simpl in Hnd. apply NoDup_cons in Hnd as [Hfresh Hnd].
  apply elem_of_cons in Hin as [Heq | Hin].
  - inversion Heq; subst n' p'. destruct Had as [d ->].
    rewrite save_original_absent by done. apply lookup_insert_eq.
  - destruct (adapted !! n'); by apply IH.
Qed.

Lemma names_restore_original (original : gmap string tensor) ps :
  names (restore_original original ps) = names ps.
Proof.
  unfold names, restore_original. rewrite <- list_fmap_compose.
  apply list_fmap_ext. intros i [n p] _. simpl. by destruct (original !! n).
Qed.

Lemma restore_original_data (original : gmap string tensor) ps n p' d :
  (n, p') ∈ restore_original original ps -> original !! n = Some d -> data p' = d.
Proof.
  unfold restore_original. intros Hin Ho.
  apply list_elem_of_fmap in Hin as ([n0 p0] & Heq & _). simpl in Heq.
  destruct (original !! n0) eqn:Hn0; inversion Heq; subst; simpl; congruence.
Qed.

(** C1: when a [temporary_weights] scope ends, the block's outcome
    (returned or raised) is passed on, the model has the parameters the
    block left, and every parameter that was saved on entry holds the data
    it held before the scope. *)
Theorem temporary_weights_restores {A : Type} (adapted : gmap string tensor)
    (eta : float) (body : nn_model tensor -> outcome A * nn_model tensor)
    (model : nn_model tensor) :
  NoDup (names (named_parameters model)) ->
  (temporary_weights sub_scaled adapted eta body model).1 =
    (body (with_parameters
             (apply_adapted sub_scaled adapted eta (named_parameters model)) model)).1 /\
  names (named_parameters (temporary_weights sub_scaled adapted eta body model).2) =
    names (named_parameters
             (body (with_parameters
                      (apply_adapted sub_scaled adapted eta (named_parameters model))
                      model)).2) /\
  forall n p p',
    (n, p) ∈ named_parameters model -> is_Some (adapted !! n) ->
    (n, p') ∈ named_parameters (temporary_weights sub_scaled adapted eta body model).2 ->
    data p' = data p.
Proof.
  intros Hnd. unfold temporary_weights.
  destruct (body _) as [r model2]; simpl.
  split; [done|]. split; [apply names_restore_original|].
  intros n p p' Hin Had Hin'.
  eapply restore_original_data; [exact Hin'|].
  by apply save_original_saved.
Qed.

End TransientMutator.

Lemma temporary_weights_restores_witness :
  NoDup (names (named_parameters Toy.model)) /\
  (temporary_weights Toy.sub_scaled Toy.deltas 0.5%float Toy.failing_block Toy.model).1 =
    Raised (RuntimeError "evaluation failed") /\
  forall p', ("w", p') ∈ named_parameters
               (temporary_weights Toy.sub_scaled Toy.deltas 0.5%float
                  Toy.failing_block Toy.model).2 ->
             data p' = 1%float.
Proof.
  assert (Hnd : NoDup (names (named_parameters Toy.model))).
  { apply (bool_decide_unpack _). vm_compute. reflexivity. }
  split; [exact Hnd|].
  destruct (temporary_weights_restores Toy.sub_scaled Toy.deltas 0.5%float
              Toy.failing_block Toy.model Hnd) as (Hout & _ & Hdata).
  split; [exact Hout|].
  intros p' Hin.
  apply (Hdata "w" (Parameter_ 1%float true None []) p'); [|by eexists|exact Hin].
  simpl. apply elem_of_cons. by left.
Defined.

(** ** [search_eta] *)

Section EtaSearch.

Context {tensor example output : Type}.
Context (sub_scaled : float -> tensor -> tensor -> tensor).
Context (forward : list (string * tensor) -> list example -> outcome output).
Context (loss_item : output -> float).

Implicit Types (ps : list (string * parameter tensor)) (m : nn_model tensor).

Lemma names_weights ps : (weights ps).*1 = names ps.
Proof.
  unfold weights, names. rewrite <- list_fmap_compose. by apply list_fmap_ext.
Qed.

Lemma weights_apply_adapted adapted eta ps :
  weights (apply_adapted sub_scaled adapted eta ps) =
  shifted_weights sub_scaled adapted eta (weights ps).
Proof.
  unfold weights, apply_adapted, shifted_weights.
  rewrite <- !list_fmap_compose. apply list_fmap_ext.
  intros i [n p] _. simpl. by destruct (adapted !! n).
Qed.

Lemma weights_clear_grads ps : weights (clear_grads ps) = weights ps.
Proof.
  unfold weights, clear_grads. rewrite <- list_fmap_compose. by apply list_fmap_ext.
Qed.

Lemma weights_restore_original (adapted : gmap string tensor) eta ps ps2 :
  NoDup (names ps) ->
  weights ps2 = shifted_weights sub_scaled adapted eta (weights ps) ->
  weights (restore_original (save_original adapted ps ∅) ps2) = weights ps.
Proof.
  intros Hnd Hw.
  transitivity
    (map (fun nd : string * tensor =>
            (nd.1, default nd.2 (save_original adapted ps ∅ !! nd.1))) (weights ps2)).
  { unfold weights, restore_original. rewrite <- !list_fmap_compose.
    apply list_fmap_ext. intros i [n p] _. simpl.
    by destruct (save_original adapted ps ∅ !! n). }
  rewrite Hw. unfold shifted_weights, weights. rewrite <- !list_fmap_compose.
  apply list_fmap_ext. intros i [n p] Hi. simpl.
  destruct (adapted !! n) as [delta|] eqn:Had; simpl.
  - rewrite (save_original_saved adapted ps ∅ n p); [done|done| |by eexists].
    eapply list_elem_of_lookup_2. exact Hi.
  - by rewrite save_original_unadapted, lookup_empty.
Qed.

Lemma compute_loss_spec dataloader num loss m :
  (compute_loss forward loss_item dataloader num loss m).1 =
    sum_losses forward loss_item (weights (named_parameters m)) dataloader num loss /\
  weights (named_parameters (compute_loss forward loss_item dataloader num loss m).2) =
    weights (named_parameters m).
Proof.
  revert num loss m. induction dataloader as [|batch rest IH]; intros num loss m; simpl.
  { done. }
  destruct (forward (weights (named_parameters m)) batch) as [outputs|e]; [|done].
  specialize (IH (S num) (loss + loss_item outputs)%float
                 (with_parameters (clear_grads (named_parameters m)) m)).
  simpl in IH. rewrite weights_clear_grads in IH. exact IH.
Qed.

Lemma evaluate_eta_spec dataset batch_size eta best m :
  (evaluate_eta forward loss_item dataset batch_size eta best m).1 =
    match mean_loss forward loss_item (weights (named_parameters m)) dataset batch_size with
    | Raised e => Raised e
    | Returned l => Returned (if (l <? best.1)%float then (l, Some eta) else best)
    end /\
  weights (named_parameters
             (evaluate_eta forward loss_item dataset batch_size eta best m).2) =
    weights (named_parameters m).
Proof.
  unfold evaluate_eta, mean_loss.
  destruct (DataLoader dataset batch_size) as [dataloader|e]; [|done].
  destruct (compute_loss_spec dataloader 0 0%float (train m)) as [H1 H2].
  simpl in H1, H2.
  destruct (compute_loss forward loss_item dataloader 0 0 (train m)) as [r m'].
  simpl in H1, H2. rewrite <- H1.
  destruct r as [[[|k] loss]|e]; simpl; [done| |done].
  by destruct (_ <? _)%float.
Qed.

(** One round of the search: the candidate is judged by its mean loss
    under the shifted weights, and the weights are back afterwards. *)
Lemma search_round (named_grad : gmap string tensor) dataset batch_size eta best m :
  NoDup (names (named_parameters m)) ->
  (temporary_weights sub_scaled named_grad eta
     (evaluate_eta forward loss_item dataset batch_size eta best) m).1 =
    match mean_loss forward loss_item
            (shifted_weights sub_scaled named_grad eta (weights (named_parameters m)))
            dataset batch_size with
    | Raised e => Raised e
    | Returned l => Returned (if (l <? best.1)%float then (l, Some eta) else best)
    end /\
  weights (named_parameters
             (temporary_weights sub_scaled named_grad eta
                (evaluate_eta forward loss_item dataset batch_size eta best) m).2) =
    weights (named_parameters m).
Proof.
  intros Hnd. unfold temporary_weights.
  pose proof (evaluate_eta_spec dataset batch_size eta best
                (with_parameters
                   (apply_adapted sub_scaled named_grad eta (named_parameters m)) m))
    as [H1 H2].
  destruct (evaluate_eta _ _ _ _ _ _ _) as [r m2]. simpl in *.
  rewrite weights_apply_adapted in H1, H2. split; [exact H1|].
  by apply (weights_restore_original named_grad eta).
Qed.

Lemma best_so_far_step (L : float -> float) seen best eta :
  best_so_far L seen best ->
  best_so_far L (seen ++ [eta])
    (if (L eta <? best.1)%float then (L eta, Some eta) else best).
Proof.
  destruct best as [min_loss [b|]]; unfold best_so_far; simpl.
  - intros (-> & pre & post & -> & Hpre & Hpost).
    destruct (L eta <? L b)%float eqn:Hlt; simpl.
    + split; [done|]. exists (pre ++ b :: post), []. split; [done|].
      split; [|intros e He; by apply elem_of_nil in He].
      intros e He. destruct (L e <=? L eta)%float eqn:Hle; [|done].
      pose proof (float_le_lt_trans _ _ _ Hle Hlt) as Hcontra.
      apply elem_of_app in He as [He|He].
      * apply float_lt_le in Hcontra. rewrite (Hpre e He) in Hcontra. done.
      * apply elem_of_cons in He as [->|He].
        -- rewrite float_lt_irrefl in Hcontra. done.
        -- rewrite (Hpost e He) in Hcontra. done.
    + split; [done|]. exists pre, (post ++ [eta]).
      split; [by rewrite <- app_assoc|]. split; [done|].
      intros e He. apply elem_of_app in He as [He|He]; [by apply Hpost|].
      apply list_elem_of_singleton in He as ->. done.
  - intros (-> & Hseen).
    destruct (L eta <? inf)%float eqn:Hlt; simpl.
    + split; [done|]. exists seen, []. split; [done|].
      split; [|intros e He; by apply elem_of_nil in He].
      intros e He. destruct (L e <=? L eta)%float eqn:Hle; [|done].
      pose proof (float_le_lt_trans _ _ _ Hle Hlt) as Hcontra.
      rewrite (Hseen e He) in Hcontra. done.
    + split; [done|]. intros e He. apply elem_of_app in He as [He|He]; [by apply Hseen|].
      apply list_elem_of_singleton in He as ->. done.
Qed.

Lemma search_loop_spec (named_grad : gmap string tensor) dataset batch_size
    (L : float -> float) (w : list (string * tensor)) etas :
  NoDup w.*1 ->
  (forall eta, eta ∈ etas ->
     mean_loss forward loss_item (shifted_weights sub_scaled named_grad eta w)
       dataset batch_size = Returned (L eta)) ->
  forall seen best m,
    weights (named_parameters m) = w ->
    best_so_far L seen best ->
    exists best' m',
      search_loop sub_scaled forward loss_item named_grad dataset batch_size etas best m
        = (Returned best', m') /\
      weights (named_parameters m') = w /\
      best_so_far L (seen ++ etas) best'.
Proof.
  intros Hnd. induction etas as [|eta rest IH]; intros HL seen best m Hw Hbest; simpl.
  { exists best, m. by rewrite app_nil_r. }
  assert (Hnd' : NoDup (names (named_parameters m))).
  { by rewrite <- names_weights, Hw. }
  destruct (search_round named_grad dataset batch_size eta best m Hnd') as [H1 H2].
  rewrite Hw, (HL eta) in H1 by (apply elem_of_cons; by left).
  destruct (temporary_weights _ _ _ _ _) as [r m1]. simpl in H1, H2. subst r.
  destruct (IH (fun e He => HL e (list_elem_of_further _ _ _ He)) (seen ++ [eta])
              (if (L eta <? best.1)%float then (L eta, Some eta) else best) m1)
    as (best' & m' & Hrun & Hw' & Hinv).
  { by rewrite H2. }
  { by apply best_so_far_step. }
  exists best', m'. rewrite <- app_assoc in Hinv. done.
Qed.

Lemma search_loop_no_improvement (named_grad : gmap string tensor) dataset batch_size
    (w : list (string * tensor)) best etas :
  NoDup w.*1 ->
  (forall eta, eta ∈ etas ->
     exists l,
       mean_loss forward loss_item (shifted_weights sub_scaled named_grad eta w)
         dataset batch_size = Returned l /\
       (l <? best.1)%float = false) ->
  forall m,
    weights (named_parameters m) = w ->
    exists m',
      search_loop sub_scaled forward loss_item named_grad dataset batch_size etas best m
        = (Returned best, m') /\
      weights (named_parameters m') = w.
Proof.
  intros Hnd. induction etas as [|eta rest IH]; intros HL m Hw; simpl.
  { by exists m. }
  assert (Hnd' : NoDup (names (named_parameters m))).
  { by rewrite <- names_weights, Hw. }
  destruct (search_round named_grad dataset batch_size eta best m Hnd') as [H1 H2].
  destruct (HL eta) as (l & Hl & Hlt); [apply elem_of_cons; by left|].
  rewrite Hw, Hl, Hlt in H1.
  destruct (temporary_weights _ _ _ _ _) as [r m1]. simpl in H1, H2. subst r.
  apply IH; [|by rewrite H2].
  intros e He. apply HL. by apply list_elem_of_further.
Qed.



(** C10: [search_eta] can return [None]: when the mean loss of every
    candidate is NaN, no comparison [loss < min_loss] succeeds, [best_eta]
    keeps its initial value and [None] is returned. *)
Theorem search_eta_none_when_all_nan (named_grad : gmap string tensor)
    (dataset : list example) (batch_size : nat) (model : nn_model tensor) :
  NoDup (names (named_parameters model)) ->
  (forall eta, eta ∈ eta_list ->
     exists l,
       mean_loss forward loss_item
         (shifted_weights sub_scaled named_grad eta (weights (named_parameters model)))
         dataset batch_size = Returned l /\
       is_nan l = true) ->
  exists model',
    search_eta sub_scaled forward loss_item model dataset batch_size (Some named_grad)
      = (Returned None, model') /\
    weights (named_parameters model') = weights (named_parameters model).
Proof.
  intros Hnd Hnan.
  destruct (search_loop_no_improvement named_grad dataset batch_size
              (weights (named_parameters model)) (inf, None) eta_list) with (m := model)
    as (m' & Hrun & Hw).
  { by rewrite names_weights. }
  { intros eta He. destruct (Hnan eta He) as (l & Hl & Hl_nan).
    exists l. split; [done|]. simpl. by apply float_nan_lt. }
  { reflexivity. }
  exists m'. unfold search_eta. rewrite Hrun. done.
Qed.

End EtaSearch.


Lemma search_eta_none_when_all_nan_witness :
  exists model',
    search_eta Toy.sub_scaled Toy.forward Toy.loss_item Toy.nan_model Toy.dataset 2
      (Some Toy.deltas) = (Returned None, model').
Proof.
  assert (Hnd : NoDup (names (named_parameters Toy.nan_model))).
  { apply (bool_decide_unpack _). vm_compute. reflexivity. }
  destruct (search_eta_none_when_all_nan Toy.sub_scaled Toy.forward Toy.loss_item
              Toy.deltas Toy.dataset 2 Toy.nan_model Hnd) as (model' & Hrun & _).
  { intros eta He. exists nan. unfold eta_list in He.
    repeat (apply elem_of_cons in He as [->|He]; [vm_compute; split; reflexivity|]).
    by apply elem_of_nil in He. }
  by exists model'.
Defined.

(** ** [estimate_gradient] *)

Section GradientEstimator.

Context {tensor example output : Type}.
Context (tadd : tensor -> tensor -> tensor) (tdiv : tensor -> nat -> tensor).
Context (forward : list (string * tensor) -> list example -> outcome output).
Context (backward :
  list (string * tensor) -> output -> outcome (list (string * tensor))).

Implicit Types (ps : list (string * parameter tensor)) (m : nn_model tensor).
Implicit Types (rd : gmap string tensor).

(** *** What the steps of a backward pass leave alone *)

Lemma clear_grads_idemp ps : clear_grads (clear_grads ps) = clear_grads ps.
Proof.
  unfold clear_grads. rewrite <- list_fmap_compose. by apply list_fmap_ext.
Qed.

Lemma clear_grads_record_gradient_hook ps rd :
  clear_grads (record_gradient_hook tadd ps rd).1 = clear_grads ps.
Proof.
  revert rd. induction ps as [|[n p] ps IH]; intros rd; simpl; [done|].
  destruct (requires_grad p), (grad p).
  all: match goal with
       | |- context [record_gradient_hook tadd ?l ?r] =>
           specialize (IH r); destruct (record_gradient_hook tadd l r)
       end; simpl in *; by rewrite IH.
Qed.

Lemma clear_grads_accumulate_grad n g ps :
  clear_grads (accumulate_grad tadd n g ps) = clear_grads ps.
Proof.
  unfold clear_grads, accumulate_grad. rewrite <- list_fmap_compose.
  apply list_fmap_ext. intros i [n' p] _. simpl. by destruct (decide (n' = n)).
Qed.

Lemma clear_grads_loss_backward handles delivered ps rd :
  clear_grads (loss_backward tadd handles delivered ps rd).1 = clear_grads ps.
Proof.
  revert ps rd. induction delivered as [|[n g] rest IH]; intros ps rd; simpl; [done|].
  destruct (lookup_parameter n ps) as [p|]; [|apply IH].
  destruct (requires_grad p); [|apply IH].
  destruct (has_hook handles p).
  - pose proof (clear_grads_record_gradient_hook ps rd) as Hs.
    destruct (record_gradient_hook tadd ps rd) as [ps1 rd1]. simpl in Hs.
    by rewrite IH, clear_grads_accumulate_grad.
  - by rewrite IH, clear_grads_accumulate_grad.
Qed.

Lemma hook_table_clear_grads ps : hook_table (clear_grads ps) = hook_table ps.
Proof.
  unfold hook_table, clear_grads. rewrite <- list_fmap_compose. by apply list_fmap_ext.
Qed.

Lemma names_clear_grads ps : names (clear_grads ps) = names ps.
Proof.
  unfold names, clear_grads. rewrite <- list_fmap_compose. by apply list_fmap_ext.
Qed.

Lemma gradient_loop_hook_table handles dataloader num rd m :
  hook_table (named_parameters
                (gradient_loop tadd forward backward handles dataloader num rd m).2) =
  hook_table (named_parameters m).
Proof.
  revert num rd m. induction dataloader as [|batch rest IH]; intros num rd m; simpl; [done|].
  destruct (forward _ batch) as [outputs|e]; [|done].
  destruct (backward _ outputs) as [delivered|e]; [|done].
  pose proof (clear_grads_loss_backward handles delivered (named_parameters m) rd) as H1.
  destruct (loss_backward _ _ _ _ _) as [ps1 rd1]. simpl in H1.
  pose proof (clear_grads_record_gradient_hook ps1 rd1) as H2.
  destruct (record_gradient_hook _ _ _) as [ps2 rd2]. simpl in H2.
  rewrite IH. simpl.
  by rewrite hook_table_clear_grads, <- (hook_table_clear_grads ps2), H2, H1,
    hook_table_clear_grads.
Qed.

(** *** What a backward pass records *)

Lemma lookup_parameter_elem_of n ps p :
  lookup_parameter n ps = Some p -> (n, p) ∈ ps.
Proof.
  induction ps as [|[n' p'] ps IH]; simpl; [done|].
  destruct (decide (n' = n)) as [->|Hne].
  - intros [= ->]. apply elem_of_cons. by left.
  - intros H. apply list_elem_of_further. by apply IH.
Qed.

Lemma lookup_parameter_None n ps :
  lookup_parameter n ps = None <-> n ∉ names ps.
Proof.
  unfold names. induction ps as [|[n' p'] ps IH]; simpl.
  { split; [intros _ Hin; by apply elem_of_nil in Hin|done]. }
  rewrite not_elem_of_cons. destruct (decide (n' = n)) as [->|Hne].
  - split; [done|]. intros [Hne _]. done.
  - rewrite IH. split; [intros H; split; [congruence|done]|intros [_ H]; done].
Qed.

Lemma lookup_parameter_clear_grads n ps :
  lookup_parameter n (clear_grads ps) = set_grad None <$> lookup_parameter n ps.
Proof.
  induction ps as [|[n' p'] ps IH]; simpl; [done|].
  by destruct (decide (n' = n)).
Qed.

Lemma lookup_parameter_accumulate_grad n n' g ps :
  lookup_parameter n (accumulate_grad tadd n' g ps) =
    (fun p => if decide (n = n')
              then set_grad (Some (match grad p with
                                   | None => g
                                   | Some g0 => tadd g0 g
                                   end)) p
              else p) <$> lookup_parameter n ps.
Proof.
  induction ps as [|[n0 p0] ps IH]; simpl; [done|].
  destruct (decide (n0 = n')) as [->|Hne]; simpl.
  - destruct (decide (n' = n)) as [->|Hne]; simpl; [|done].
    by rewrite decide_True.
  - destruct (decide (n0 = n)) as [->|Hne2]; simpl; [|done].
    by rewrite decide_False.
Qed.

Lemma ready_frame handles ps ps' :
  clear_grads ps' = clear_grads ps -> ready handles ps -> ready handles ps'.
Proof.
  intros Heq [Hnd Hall]. split.
  - by rewrite <- names_clear_grads, Heq, names_clear_grads.
  - assert (Hc : Forall (fun np : string * parameter tensor =>
                requires_grad np.2 = true /\ has_hook handles np.2 = true)
                (clear_grads ps)).
    { unfold clear_grads. apply Forall_fmap. eapply Forall_impl; [exact Hall|]. done. }
    rewrite <- Heq in Hc. unfold clear_grads in Hc. apply Forall_fmap in Hc.
    eapply Forall_impl; [exact Hc|]. done.
Qed.

Lemma received_frame ps ps' delivered n :
  clear_grads ps' = clear_grads ps -> received ps' delivered n = received ps delivered n.
Proof.
  intros Heq. unfold received.
  by rewrite <- (names_clear_grads ps'), Heq, names_clear_grads.
Qed.

Lemma record_gradient_hook_clears ps rd :
  Forall (fun np => requires_grad np.2 = true) ps ->
  (record_gradient_hook tadd ps rd).1 = clear_grads ps.
Proof.
  revert rd. induction ps as [|[n p] ps IH]; intros rd Hall; simpl; [done|].
  apply Forall_cons in Hall as [Hp Hall]. simpl in Hp. rewrite Hp.
  destruct (grad p) eqn:Hg.
  all: match goal with
       | |- context [record_gradient_hook tadd ?l ?r] =>
           specialize (IH r Hall); destruct (record_gradient_hook tadd l r)
       end; simpl in *; rewrite IH.
  - done.
  - f_equal. f_equal. destruct p. simpl in *. by subst.
Qed.

Lemma recorded_with_pending_ext ps rd rd' n :
  rd' !! n = rd !! n -> recorded_with_pending tadd ps rd' n = recorded_with_pending tadd ps rd n.
Proof. unfold recorded_with_pending. by intros ->. Qed.

Lemma record_gradient_hook_lookup ps rd n :
  NoDup (names ps) ->
  (record_gradient_hook tadd ps rd).2 !! n = recorded_with_pending tadd ps rd n.
Proof.
  revert rd. induction ps as [|[n0 p0] ps IH]; intros rd Hnd; [done|].
  unfold names in Hnd. simpl in Hnd. apply NoDup_cons in Hnd as [Hfresh Hnd].
  assert (Htail : forall rd0, n0 = n ->
            recorded_with_pending tadd ps rd0 n = rd0 !! n).
  { intros rd0 <-. unfold recorded_with_pending.
    by rewrite (proj2 (lookup_parameter_None n0 ps) Hfresh). }
  unfold recorded_with_pending at 1. simpl.
  destruct (requires_grad p0) eqn:Hr, (grad p0) as [g|] eqn:Hg.
  all: match goal with
       | |- context [record_gradient_hook tadd ?l ?r] =>
           specialize (IH r Hnd); destruct (record_gradient_hook tadd l r)
       end; simpl in *; rewrite IH.
  all: destruct (decide (n0 = n)) as [Heq|Hne];
    [rewrite (Htail _ Heq); subst n0|]; rewrite ?Hr, ?Hg.
  all: try done.
  - unfold add_gradient. destruct (rd !! n); by rewrite lookup_insert_eq.
  - unfold recorded_with_pending. destruct (rd !! n0); by rewrite lookup_insert_ne.
Qed.

Lemma foldl_add_gradient_Some a gs :
  foldl (add_gradient tadd) (Some a) gs = Some (foldl tadd a gs).
Proof. revert a. induction gs as [|g gs IH]; intros a; simpl; [done|apply IH]. Qed.

Lemma loss_backward_records handles delivered ps rd n :
  ready handles ps ->
  recorded_with_pending tadd (loss_backward tadd handles delivered ps rd).1
      (loss_backward tadd handles delivered ps rd).2 n =
    foldl (add_gradient tadd) (recorded_with_pending tadd ps rd n)
      (received ps delivered n).
Proof.
  revert ps rd. induction delivered as [|[n' g] rest IH]; intros ps rd Hready; simpl.
  { unfold received. by destruct (decide _). }
  destruct (lookup_parameter n' ps) as [p|] eqn:Hlook.
  - pose proof (lookup_parameter_elem_of _ _ _ Hlook) as Hin.
    pose proof Hready as [Hnd Hall]. pose proof Hall as Hall'.
    rewrite Forall_forall in Hall'. destruct (Hall' _ Hin) as [Hr Hh]. simpl in Hr, Hh.
    rewrite Hr, Hh.
    pose proof (record_gradient_hook_clears ps rd) as Hclear.
    pose proof (record_gradient_hook_lookup ps rd n Hnd) as Hrec.
    destruct (record_gradient_hook tadd ps rd) as [ps1 rd1]. simpl in Hclear, Hrec.
    rewrite Hclear by (eapply Forall_impl; [exact Hall|]; by intros ? [? ?]).
    assert (Hframe : clear_grads (accumulate_grad tadd n' g (clear_grads ps))
                     = clear_grads ps).
    { by rewrite clear_grads_accumulate_grad, clear_grads_idemp. }
    rewrite IH by (eapply ready_frame; [exact Hframe|done]).
    rewrite (received_frame ps) by exact Hframe.
    assert (Hnames : n' ∈ names ps).
    { unfold names. apply list_elem_of_fmap. by exists (n', p). }
    unfold received. simpl. rewrite filter_cons. simpl.
    unfold recorded_with_pending at 1.
    rewrite lookup_parameter_accumulate_grad, lookup_parameter_clear_grads.
    destruct (decide (n' = n)) as [->|Hne].
    + rewrite Hlook. simpl. rewrite !decide_True by done. simpl. rewrite Hr. simpl.
      by rewrite Hrec.
    + destruct (lookup_parameter n ps) as [q|] eqn:Hq; simpl.
      * rewrite !(decide_False (P := n = n')) by congruence. simpl.
        destruct (requires_grad q); by rewrite Hrec.
      * by rewrite Hrec.
  - rewrite IH by done. f_equal. unfold received.
    destruct (decide (n ∈ names ps)) as [Hn|Hn]; [|done].
    rewrite filter_cons_False; [done|]. simpl. intros ->.
    by apply lookup_parameter_None in Hlook.
Qed.

Lemma recorded_without_pending ps rd n :
  clear_grads ps = ps -> recorded_with_pending tadd ps rd n = rd !! n.
Proof.
  intros Hc. unfold recorded_with_pending.
  rewrite <- Hc, lookup_parameter_clear_grads.
  destruct (lookup_parameter n ps) as [p|]; simpl; [|done].
  by destruct (requires_grad p).
Qed.

Lemma received_app ps d1 d2 n :
  received ps (d1 ++ d2) n = received ps d1 n ++ received ps d2 n.
Proof.
  unfold received. destruct (decide _); [|done].
  by rewrite filter_app, fmap_app.
Qed.

Lemma gradient_loop_records handles dataloader per_batch num rd m :
  ready handles (named_parameters m) ->
  clear_grads (named_parameters m) = named_parameters m ->
  Forall2 (fun batch delivered =>
             exists outputs,
               forward (weights (named_parameters m)) batch = Returned outputs /\
               backward (weights (named_parameters m)) outputs = Returned delivered)
          dataloader per_batch ->
  exists rd',
    gradient_loop tadd forward backward handles dataloader num rd m
      = (Returned (num + length dataloader, rd'), m) /\
    forall n, rd' !! n =
      foldl (add_gradient tadd) (rd !! n)
        (received (named_parameters m) (mjoin per_batch) n).
Proof.
  intros Hready Hclear Hruns. revert num rd.
  induction Hruns as [|batch delivered rest per_rest (outputs & Hf & Hb) Hrest IH];
    intros num rd; simpl.
  { exists rd. split; [by rewrite Nat.add_0_r|].
    intros n. unfold received. by destruct (decide _). }
  rewrite Hf, Hb.
  pose proof (clear_grads_loss_backward handles delivered (named_parameters m) rd)
    as Hframe1.
  pose proof (fun n => loss_backward_records handles delivered (named_parameters m) rd n
                         Hready) as Hrec1.
  destruct (loss_backward _ _ _ _ _) as [ps1 rd1]. simpl in Hframe1, Hrec1.
  pose proof (clear_grads_record_gradient_hook ps1 rd1) as Hframe2.
  pose proof (fun n => record_gradient_hook_lookup ps1 rd1 n
                         (proj1 (ready_frame handles _ ps1 Hframe1 Hready))) as Hrec2.
  destruct (record_gradient_hook _ _ _) as [ps2 rd2]. simpl in Hframe2, Hrec2.
  rewrite Hframe2, Hframe1, Hclear.
  replace (with_parameters (named_parameters m) m) with m by (by destruct m).
  destruct (IH (S num) rd2) as (rd' & Hrun & Hrd').
  exists rd'. split.
  { rewrite Hrun. do 2 f_equal. f_equal. lia. }
  intros n. rewrite Hrd', received_app, foldl_app. f_equal.
  rewrite Hrec2, Hrec1. f_equal. by apply recorded_without_pending.
Qed.

(** *** Registering and removing the hooks *)

Lemma register_hooks_returned next ps handles ps_r :
  register_hooks next ps = (Returned handles, ps_r) ->
  handles = seq next (length ps) /\ Forall2 (hook_added handles) ps ps_r.
Proof.
  revert next handles ps_r.
  induction ps as [|[n p] ps IH]; intros next handles ps_r; simpl.
  { intros [= <- <-]. split; [done|constructor]. }
  destruct (requires_grad p); [|discriminate].
  destruct (register_hooks (S next) ps) as [[hs|e] rest'] eqn:Hreg; [|discriminate].
  intros [= <- <-]. destruct (IH _ _ _ Hreg) as [-> Hrest].
  split; [done|]. constructor.
  - split; [done|]. exists next. split; [apply elem_of_cons; by left|done].
  - eapply Forall2_impl; [exact Hrest|].
    intros np np' (Hname & h & Hh & Hp). split; [done|].
    exists h. split; [by apply list_elem_of_further|done].
Qed.

Lemma register_hooks_succeeds next ps :
  Forall (fun np => requires_grad np.2 = true) ps ->
  exists ps_r, register_hooks next ps = (Returned (seq next (length ps)), ps_r).
Proof.
  revert next. induction ps as [|[n p] ps IH]; intros next Hall; simpl.
  { by eexists. }
  apply Forall_cons in Hall as [Hp Hall]. simpl in Hp. rewrite Hp.
  destruct (IH (S next) Hall) as [ps_r ->]. by eexists.
Qed.

Lemma hooks_below_fresh_handle ps n p h :
  (n, p) ∈ ps -> h ∈ hooks p -> h < fresh_handle ps.
Proof.
  intros Hin Hh. unfold fresh_handle. apply Nat.lt_succ_r.
  apply max_list_elem_of_le. apply list_elem_of_join.
  exists (hooks p). split; [done|].
  apply list_elem_of_fmap. by exists (n, p).
Qed.

Lemma filter_keeps_all (handles l : list nat) :
  (forall h, h ∈ l -> h ∉ handles) -> filter (fun h => h ∉ handles) l = l.
Proof.
  induction l as [|x l IH]; intros Hl; [done|].
  rewrite filter_cons_True by (apply Hl, elem_of_cons; by left).
  f_equal. apply IH. intros h Hh. by apply Hl, list_elem_of_further.
Qed.

Lemma hook_table_remove_hooks handles ps ps_r ps' :
  Forall2 (hook_added handles) ps ps_r ->
  hook_table ps' = hook_table ps_r ->
  (forall n p h, (n, p) ∈ ps -> h ∈ hooks p -> h ∉ handles) ->
  hook_table (remove_hooks handles ps') = hook_table ps.
Proof.
  intros Hadd Htable Hold.
  transitivity
    (map (fun nh : string * list nat => (nh.1, filter (fun h => h ∉ handles) nh.2))
         (hook_table ps')).
  { unfold hook_table, remove_hooks. rewrite <- !list_fmap_compose.
    by apply list_fmap_ext. }
  rewrite Htable. clear Htable ps'.
  induction Hadd as [|[n p] [n' p'] ps ps_r (Hname & h & Hh & Hp) Hrest IH]; [done|].
  simpl in *. subst n' p'. simpl. f_equal.
  - f_equal. rewrite filter_app, filter_cons_False, filter_nil, app_nil_r by tauto.
    apply filter_keeps_all. intros h' Hh'.
    apply (Hold n p h'); [apply elem_of_cons; by left|done].
  - apply IH. intros n0 p0 h0 Hin. apply (Hold n0 p0 h0). by apply list_elem_of_further.
Qed.

Lemma hook_added_frame handles ps ps_r :
  Forall2 (hook_added handles) ps ps_r ->
  names ps_r = names ps /\ weights ps_r = weights ps /\
  (Forall (fun np => requires_grad np.2 = true /\ grad np.2 = None) ps ->
   clear_grads ps_r = ps_r /\
   Forall (fun np => requires_grad np.2 = true /\ has_hook handles np.2 = true) ps_r).
Proof.
  induction 1 as [|[n p] [n' p'] ps ps_r (Hname & h & Hh & Hp) Hrest
                    (IHn & IHw & IHc)]; simpl in *.
  { repeat split; constructor. }
  subst n' p'. unfold names, weights in *. simpl. rewrite IHn, IHw.
  split; [done|]. split; [done|].
  intros Hall. apply Forall_cons in Hall as [[Hr Hg] Hall]. simpl in Hr, Hg.
  destruct (IHc Hall) as [Hc Hready]. split.
  - unfold clear_grads in *. simpl. rewrite Hc. f_equal. f_equal.
    unfold set_grad, set_hooks. simpl. by rewrite Hg.
  - constructor; [|done]. simpl. split; [done|].
    unfold has_hook. simpl. rewrite existsb_app. simpl.
    rewrite bool_decide_eq_true_2 by done. by rewrite orb_true_r.
Qed.

(** C4: when every batch of the calibration set passes forward and
    backward, [estimate_gradient] returns a dict that holds, for each
    parameter that received a gradient, the sum of the gradients it
    received (in the order of the batches) divided by the number of
    batches, and that has no entry for a parameter that received none. *)
Theorem estimate_gradient_mean (model : nn_model tensor) (dataset : list example)
    (batch_size : nat) (per_batch : list (list (string * tensor))) :
  NoDup (names (named_parameters model)) ->
  Forall (fun np => requires_grad np.2 = true /\ grad np.2 = None)
         (named_parameters model) ->
  0 < batch_size ->
  Forall2 (fun batch delivered =>
             exists outputs,
               forward (weights (named_parameters model)) batch = Returned outputs /\
               backward (weights (named_parameters model)) outputs = Returned delivered)
          (batch_sampler batch_size [] dataset) per_batch ->
  exists named_grads model',
    estimate_gradient tadd tdiv forward backward model dataset batch_size
      = (Returned named_grads, model') /\
    (forall n,
       named_grads !! n =
         mean_of tadd tdiv (received (named_parameters model) (mjoin per_batch) n)
           (length (batch_sampler batch_size [] dataset))) /\
    (forall n,
       received (named_parameters model) (mjoin per_batch) n = [] ->
       named_grads !! n = None).
Proof.
  intros Hnd Hall Hbs Hruns.
  assert (exists named_grads model',
    estimate_gradient tadd tdiv forward backward model dataset batch_size
      = (Returned named_grads, model') /\
    forall n,
       named_grads !! n =
         mean_of tadd tdiv (received (named_parameters model) (mjoin per_batch) n)
           (length (batch_sampler batch_size [] dataset)))
    as (named_grads & model' & Hrun & Hmean).
  2:{ exists named_grads, model'. split; [done|]. split; [done|].
      intros n Hn. by rewrite Hmean, Hn. }
  unfold estimate_gradient. simpl.
  destruct (register_hooks_succeeds (fresh_handle (named_parameters model))
              (named_parameters model)) as [ps_r Hreg].
  { eapply Forall_impl; [exact Hall|]. by intros ? [? ?]. }
  rewrite Hreg. apply register_hooks_returned in Hreg as [_ Hadd].
  apply hook_added_frame in Hadd as (Hnames & Hweights & Hrest).
  destruct (Hrest Hall) as [Hclear Hhooked].
  destruct batch_size as [|k]; [lia|]. simpl.
  destruct (gradient_loop_records
              (seq (fresh_handle (named_parameters model))
                   (length (named_parameters model)))
              (batch_sampler (S k) [] dataset) per_batch 0 ∅
              (with_parameters ps_r (train model))) as (rd' & Hloop & Hrd').
  { split; simpl; [by rewrite Hnames|done]. }
  { done. }
  { simpl. by rewrite Hweights. }
  rewrite Hloop. simpl. eexists _, _. split; [reflexivity|].
  intros n. rewrite lookup_fmap, Hrd', lookup_empty.
  unfold received. simpl. rewrite Hnames.
  destruct (decide (n ∈ names (named_parameters model))); [|done].
  destruct (_.*2) as [|g gs]; simpl; [done|].
  unfold add_gradient at 2. by rewrite foldl_add_gradient_Some.
Qed.

(** C8, as the code has it: when [estimate_gradient] completes, every
    parameter has exactly the hooks it had before the call, so every hook
    the call registered has been removed.  (Nothing is removed when a batch
    raises: the removal follows the batch loop and is not in a [finally].) *)
Theorem estimate_gradient_removes_hooks (model : nn_model tensor)
    (dataset : list example) (batch_size : nat)
    (named_grads : gmap string tensor) (model' : nn_model tensor) :
  estimate_gradient tadd tdiv forward backward model dataset batch_size
    = (Returned named_grads, model') ->
  hook_table (named_parameters model') = hook_table (named_parameters model).
Proof.
  unfold estimate_gradient. simpl.
  destruct (register_hooks _ _) as [[handles|e] ps_r] eqn:Hreg; [|discriminate].
  destruct (DataLoader dataset batch_size) as [dataloader|e]; [|discriminate].
  pose proof (gradient_loop_hook_table handles dataloader 0 ∅
                (with_parameters ps_r (train model))) as Hloop.
  destruct (gradient_loop _ _ _ _ _ _ _ _) as [[[num rd]|e] m1]; [|discriminate].
  intros [= _ <-]. simpl in *.
  apply register_hooks_returned in Hreg as [Hhandles Hadd].
  apply (hook_table_remove_hooks handles _ ps_r); [done|done|].
  intros n p h Hin Hh. subst handles. rewrite elem_of_seq.
  pose proof (hooks_below_fresh_handle _ n p h Hin Hh). lia.
Qed.

End GradientEstimator.

Lemma estimate_gradient_removes_hooks_witness :
  exists named_grads model',
    estimate_gradient Toy.tadd Toy.tdiv Toy.forward Toy.backward Toy.model Toy.dataset 2
      = (Returned named_grads, model') /\
    hook_table (named_parameters model') = [("w", []); ("b", [7])].
Proof.
  destruct (estimate_gradient Toy.tadd Toy.tdiv Toy.forward Toy.backward Toy.model
              Toy.dataset 2) as [[named_grads|e] model'] eqn:Hrun;
    [|vm_compute in Hrun; discriminate].
  exists named_grads, model'. split; [reflexivity|].
  exact (estimate_gradient_removes_hooks Toy.tadd Toy.tdiv Toy.forward Toy.backward
           Toy.model Toy.dataset 2 named_grads model' Hrun).
Defined.

Lemma estimate_gradient_mean_witness :
  exists named_grads model',
    estimate_gradient Toy.tadd Toy.tdiv Toy.forward Toy.backward Toy.model Toy.dataset 2
      = (Returned named_grads, model') /\
    named_grads !! "w" = Some 3%float /\ named_grads !! "b" = None.
Proof.
  assert (Hnd : NoDup (names (named_parameters Toy.model))).
  { apply (bool_decide_unpack _). vm_compute. reflexivity. }
  assert (Hall : Forall (fun np : string * parameter float =>
                           requires_grad np.2 = true /\ grad np.2 = None)
                        (named_parameters Toy.model)).
  { repeat constructor. }
  assert (Hbs : 0 < 2) by lia.
  destruct (estimate_gradient_mean Toy.tadd Toy.tdiv Toy.forward Toy.backward
              Toy.model Toy.dataset 2 [[("w", 3%float)]; [("w", 3%float)]]
              Hnd Hall Hbs) as (named_grads & model' & Hrun & Hmean & _).
  { repeat constructor; by exists 1%float. }
  exists named_grads, model'. split; [exact Hrun|].
  rewrite !Hmean. split; vm_compute; reflexivity.
Defined.

(** C8, as stated, fails: a batch whose forward pass raises ends
    [estimate_gradient] with the error, and the hooks registered at its
    start ([8] on [w], [9] on [b]) are still on the parameters. *)
Lemma estimate_gradient_leaks_hooks_on_error :
  (estimate_gradient Toy.tadd Toy.tdiv Toy.failing_forward Toy.backward Toy.model
     Toy.dataset 2).1 = Raised (RuntimeError "CUDA out of memory") /\
  hook_table (named_parameters Toy.model) = [("w", []); ("b", [7])] /\
  hook_table (named_parameters
                (estimate_gradient Toy.tadd Toy.tdiv Toy.failing_forward Toy.backward
                   Toy.model Toy.dataset 2).2) = [("w", [8]); ("b", [7; 9])].
Proof. vm_compute. repeat split; reflexivity. Qed.

(** ** Matrices *)

Section MatrixFacts.

Context {R : Type} `{!Scalar R}.

Implicit Types (M W O A B : matrix R) (row : list R).






Lemma entry_slice_cols lo hi M i j :
  j < hi - lo -> entry i j (slice_cols lo hi M) = entry i (lo + j) M.
Proof.
  intros Hj. unfold entry, slice_cols, matrix in *.
  change (map ?f M) with (f <$> M). rewrite list_lookup_fmap.
  destruct (M !! i) as [row|]; simpl; [|done].
  by rewrite lookup_take_lt, lookup_drop.
Qed.

Lemma entry_slice_rows lo hi M i j :
  i < hi - lo -> entry i j (slice_rows lo hi M) = entry (lo + i) j M.
Proof.
  intros Hi. unfold entry, slice_rows, matrix in *.
  by rewrite lookup_take_lt, lookup_drop.
Qed.

End MatrixFacts.

(** ** The final block of [reinit_lora_modules] *)

(** Runs the state-and-error computation in the goal. *)
Ltac st_run :=
  repeat progress
    (unfold mbind, mret, St_bind, St_ret, St.bind, St.ret, St.get, St.modify,
       St.raise, St.local, get_module, set_weight, set_lora_A, set_lora_B,
       set_magnitude;
     cbn).

Section Finalize.

Context {R : Type} `{!Scalar R} {rng : Type}.

Implicit Types (s : state R rng) (init_config : InitConfig R) (peft_conf : PeftConfig R).

(** C9: with the direction [LoRA-One] the final block leaves the base
    weight (and the scaling) as they are, whether the block returns or
    raises; each factor is either unchanged or converted to another
    precision, and so is the magnitude vector. *)
Theorem finalize_lora_one_keeps_weight init_config peft_conf s :
  direction init_config = "LoRA-One" ->
  weight (module (finalize init_config peft_conf s).2) = weight (module s) /\
  scaling (module (finalize init_config peft_conf s).2) = scaling (module s) /\
  (lora_A (module (finalize init_config peft_conf s).2) = lora_A (module s) \/
   exists d, lora_A (module (finalize init_config peft_conf s).2)
             = to_dtype d (lora_A (module s))) /\
  (lora_B (module (finalize init_config peft_conf s).2) = lora_B (module s) \/
   exists d, lora_B (module (finalize init_config peft_conf s).2)
             = to_dtype d (lora_B (module s))) /\
  (lora_magnitude_vector (module (finalize init_config peft_conf s).2)
     = lora_magnitude_vector (module s) \/
   exists d, lora_magnitude_vector (module (finalize init_config peft_conf s).2)
             = map (rcast d) <$> lora_magnitude_vector (module s)).
Proof.
  intros Hdir. unfold finalize, subtract_offset, cast_factors. rewrite Hdir.
  destruct s as [md g]. cbn.
  destruct (dora peft_conf).
  - st_run. destruct (lora_magnitude_vector md) as [v|] eqn:Hv; st_run; repeat split; eauto.
  - destruct (dtype_name init_config) as [d|]; [|st_run; repeat split; eauto].
    destruct (String.eqb d "bf16"); [st_run; repeat split; eauto|].
    destruct (String.eqb d "fp32"); st_run; repeat split; eauto.
Qed.



End Finalize.


Lemma finalize_lora_one_keeps_weight_witness :
  weight (module (finalize (IntLayer.config "gradient" "zeros" "zeros" "unit" "LoRA-One")
                    IntLayer.peft_conf IntLayer.trained_layer).2)
    = [[5; 6]; [7; 8]]%Z.
Proof.
  exact (proj1 (finalize_lora_one_keeps_weight
                  (IntLayer.config "gradient" "zeros" "zeros" "unit" "LoRA-One")
                  IntLayer.peft_conf IntLayer.trained_layer eq_refl)).
Defined.



(** ** The initialisation branches of [reinit_lora_modules] *)

Lemma bind_returned {S A B : Type} (c : St.M S A) (k : A -> St.M S B) s a s' :
  c s = (Returned a, s') -> (c ≫= k) s = k a s'.
Proof. intros Hc. unfold mbind, St_bind, St.bind. by rewrite Hc. Qed.

Lemma bind_raised {S A B : Type} (c : St.M S A) (k : A -> St.M S B) s e s' :
  c s = (Raised e, s') -> (c ≫= k) s = (Raised e, s').
Proof. intros Hc. unfold mbind, St_bind, St.bind. by rewrite Hc. Qed.

Lemma unknown_distribution_eqb (k : string) :
  k ∉ known_distributions ->
  String.eqb k "gaussian" = false /\ String.eqb k "kaiming" = false /\
  String.eqb k "fan_out_kaiming" = false /\ String.eqb k "xavier" = false /\
  String.eqb k "zeros" = false /\ String.eqb k "unit" = false /\
  String.eqb k "orthogonal" = false.
Proof.
  intros Hk. repeat split; apply String.eqb_neq; intros ->; apply Hk;
    unfold known_distributions; set_solver.
Qed.

Section Initialize.

Context {R : Type} `{!Scalar R} {rng : Type}.
Context (torch_init : init_fn R -> matrix R -> rng -> matrix R * rng).
Context (svd_lowrank :
  matrix R -> nat -> nat -> rng -> (matrix R * vector R * matrix R) * rng).

Implicit Types (s : state R rng) (init_config : InitConfig R) (peft_conf : PeftConfig R).

Lemma lora_A_init_unknown init_config a_dim s :
  init_lora_A init_config ∉ known_distributions ->
  lora_A_init init_config a_dim s =
    (Raised (ValueError (String.append "Unknown lora_A initialization: "
                           (init_lora_A init_config))), s).
Proof.
  intros Hk. apply unknown_distribution_eqb in Hk as (H1 & H2 & H3 & H4 & H5 & H6 & H7).
  unfold lora_A_init. cbv zeta. by rewrite H1, H2, H3, H4, H5, H6, H7.
Qed.

Lemma lora_B_init_unknown init_config b_dim s :
  init_lora_B init_config ∉ known_distributions ->
  lora_B_init init_config b_dim s =
    (Raised (ValueError (String.append "Unknown lora_B initialization: "
                           (init_lora_B init_config))), s).
Proof.
  intros Hk. apply unknown_distribution_eqb in Hk as (H1 & H2 & H3 & H4 & H5 & H6 & H7).
  unfold lora_B_init. cbv zeta. by rewrite H1, H2, H3, H4, H5, H6, H7.
Qed.

Lemma lora_A_init_known init_config a_dim s :
  init_lora_A init_config ∈ known_distributions ->
  exists f, lora_A_init init_config a_dim s = (Returned f, s).
Proof.
  intros Hk. unfold lora_A_init, known_distributions in *. cbv zeta.
  repeat (apply elem_of_cons in Hk as [-> | Hk]; [cbn; by eexists|]).
  by apply elem_of_nil in Hk.
Qed.

Lemma lora_B_init_known init_config b_dim s :
  init_lora_B init_config ∈ known_distributions ->
  exists f, lora_B_init init_config b_dim s = (Returned f, s).
Proof.
  intros Hk. unfold lora_B_init, known_distributions in *. cbv zeta.
  repeat (apply elem_of_cons in Hk as [-> | Hk]; [cbn; by eexists|]).
  by apply elem_of_nil in Hk.
Qed.

Lemma run_init_frame (f : init_fn R) (M : matrix R) s :
  exists M' g',
    run_init torch_init f M s = (Returned M', {| module := module s; generator := g' |}).
Proof.
  destruct s as [md g].
  destruct f; cbn; try (destruct (torch_init _ M g) as [M' g']; by eexists _, _).
  by eexists _, _.
Qed.

(** C3, as the code has it: in simple mode an unrecognised [lora_A] or
    [lora_B] distribution ends the call with a [ValueError] whose message
    names the unrecognised string ([lora_A] is examined first), before the
    final block, so the base weight is unchanged; an unrecognised [lora_A]
    leaves the whole layer unchanged, and [lora_B] is never written. *)
Theorem unknown_distribution_rejected (name : string) init_config peft_conf
    (named_grads : option (gmap string (matrix R))) s :
  mode init_config = "simple" ->
  init_lora_A init_config ∉ known_distributions \/
  init_lora_B init_config ∉ known_distributions ->
  exists s',
    reinit_lora_modules torch_init svd_lowrank name init_config peft_conf named_grads s
      = (Raised (ValueError
                   (if bool_decide (init_lora_A init_config ∈ known_distributions)
                    then String.append "Unknown lora_B initialization: "
                           (init_lora_B init_config)
                    else String.append "Unknown lora_A initialization: "
                           (init_lora_A init_config))), s') /\
    weight (module s') = weight (module s) /\
    lora_B (module s') = lora_B (module s) /\
    (init_lora_A init_config ∉ known_distributions -> s' = s).
Proof.
  intros Hmode Hunknown. unfold reinit_lora_modules.
  assert (exists s',
            initialize torch_init svd_lowrank name init_config peft_conf named_grads s
              = (Raised (ValueError
                   (if bool_decide (init_lora_A init_config ∈ known_distributions)
                    then String.append "Unknown lora_B initialization: "
                           (init_lora_B init_config)
                    else String.append "Unknown lora_A initialization: "
                           (init_lora_A init_config))), s') /\
            weight (module s') = weight (module s) /\
            lora_B (module s') = lora_B (module s) /\
            (init_lora_A init_config ∉ known_distributions -> s' = s))
    as (s' & Hinit & Hrest).
  2:{ exists s'. split; [|exact Hrest]. by apply bind_raised. }
  unfold initialize. erewrite bind_returned by reflexivity.
  cbv zeta. rewrite Hmode. change (String.eqb "simple" "simple") with true. cbv iota.
  unfold init_simple. cbv zeta.
  destruct (decide (init_lora_A init_config ∈ known_distributions)) as [HA|HA].
  - rewrite (bool_decide_eq_true_2 _ HA).
    destruct Hunknown as [HA'|HB]; [done|].
    destruct (lora_A_init_known init_config
                (Nat.max (shape (lora_A (module s))).1 (shape (lora_A (module s))).2)
                s HA) as [f Hf].
    rewrite (bind_returned _ _ _ _ _ Hf). erewrite bind_returned by reflexivity.
    destruct (run_init_frame f (lora_A (module s)) s) as (a & g' & Hrun).
    rewrite (bind_returned _ _ _ _ _ Hrun). erewrite bind_returned by reflexivity.
    erewrite bind_raised by (by apply lora_B_init_unknown).
    eexists. split; [reflexivity|]. cbn. done.
  - rewrite (bool_decide_eq_false_2 _ HA).
    erewrite bind_raised by (by apply lora_A_init_unknown).
    eexists. split; [reflexivity|]. done.
Qed.

(** In simple mode with known distributions and the [stable] scale the
    call always ends with the unbound local [m], after [A] and [B] have
    been sampled and before anything is rescaled. *)
Lemma simple_stable_unbound_local (name : string) init_config peft_conf
    (named_grads : option (gmap string (matrix R))) s :
  mode init_config = "simple" ->
  init_lora_A init_config ∈ known_distributions ->
  init_lora_B init_config ∈ known_distributions ->
  scale init_config = "stable" ->
  exists s',
    reinit_lora_modules torch_init svd_lowrank name init_config peft_conf named_grads s
      = (Raised (UnboundLocalError "m"), s') /\
    weight (module s') = weight (module s).
Proof.
  intros Hmode HA HB Hscale. unfold reinit_lora_modules.
  assert (exists s',
            initialize torch_init svd_lowrank name init_config peft_conf named_grads s
              = (Raised (UnboundLocalError "m"), s') /\
            weight (module s') = weight (module s)) as (s' & Hinit & Hrest).
  2:{ exists s'. split; [|exact Hrest]. by apply bind_raised. }
  unfold initialize. erewrite bind_returned by reflexivity.
  cbv zeta. rewrite Hmode. change (String.eqb "simple" "simple") with true. cbv iota.
  unfold init_simple. cbv zeta.
  destruct (lora_A_init_known init_config
              (Nat.max (shape (lora_A (module s))).1 (shape (lora_A (module s))).2)
              s HA) as [fA HfA].
  rewrite (bind_returned _ _ _ _ _ HfA). erewrite bind_returned by reflexivity.
  destruct (run_init_frame fA (lora_A (module s)) s) as (a & g1 & Hrun1).
  rewrite (bind_returned _ _ _ _ _ Hrun1). erewrite bind_returned by reflexivity.
  match goal with
  | |- context [(lora_B_init init_config ?d ≫= _) ?s1] =>
      destruct (lora_B_init_known init_config d s1 HB) as [fB HfB];
      rewrite (bind_returned _ _ _ _ _ HfB); erewrite bind_returned by reflexivity;
      destruct (run_init_frame fB (lora_B (module s)) s1) as (b & g2 & Hrun2)
  end.
  cbn [module lora_B] in *.
  rewrite (bind_returned _ _ _ _ _ Hrun2). erewrite bind_returned by reflexivity.
  rewrite Hscale. change (String.eqb "stable" "stable") with true. cbv iota.
  erewrite bind_returned by reflexivity.
  erewrite bind_raised by reflexivity.
  eexists. split; [reflexivity|]. reflexivity.
Qed.

(** C7, as the code has it: in gradient mode with the direction
    [LoRA-GA], [B] is the block of columns [rank .. 2*rank] of [U] and [A]
    is the block of the first [rank] rows ([0 .. rank]) of the transposed
    [V], both as the decomposition gives them; with the [unit] scale these
    are the factors the initialisation writes into the layer, and the base
    weight is not touched by it. *)
Theorem lora_ga_singular_blocks (name : string) init_config peft_conf
    (named_grad : gmap string (matrix R)) (grads : matrix R) s
    (U : matrix R) (S_ : vector R) (V : matrix R) (g' : rng) (lora_r : nat) :
  mode init_config = "gradient" ->
  direction init_config = "LoRA-GA" ->
  scale init_config = "unit" ->
  dora peft_conf = false ->
  named_grad !! grad_name_of name = Some grads ->
  svd_lowrank (to_dtype float32 grads) 512 16 (generator s) = ((U, S_, V), g') ->
  lora_r = Nat.min (shape (lora_A (module s))).1 (shape (lora_A (module s))).2 ->
  gradient_direction init_config lora_r U S_ (transpose V) s =
    (Returned (Some (slice_cols lora_r (2 * lora_r) U),
               Some (slice_rows 0 lora_r (transpose V))), s) /\
  exists s',
    initialize torch_init svd_lowrank name init_config peft_conf (Some named_grad) s
      = (Returned tt, s') /\
    lora_B (module s') = slice_cols lora_r (2 * lora_r) U /\
    lora_A (module s') = slice_rows 0 lora_r (transpose V) /\
    weight (module s') = weight (module s) /\
    (forall i j, j < lora_r ->
       entry i j (lora_B (module s')) = entry i (lora_r + j) U) /\
    (forall i j, i < lora_r ->
       entry i j (lora_A (module s')) = entry i j (transpose V)).
Proof.
  intros Hmode Hdir Hscale Hdora Hgrads Hsvd Hr.
  assert (Hdirection : forall s0,
            gradient_direction init_config lora_r U S_ (transpose V) s0 =
              (Returned (Some (slice_cols lora_r (2 * lora_r) U),
                         Some (slice_rows 0 lora_r (transpose V))), s0)).
  { intros s0. unfold gradient_direction. rewrite Hdir. reflexivity. }
  split; [apply Hdirection|].
  unfold initialize. erewrite bind_returned by reflexivity.
  cbv zeta. rewrite Hmode, <- Hr.
  change (String.eqb "gradient" "simple") with false.
  change (String.eqb "gradient" "svd") with false.
  change (String.eqb "gradient" "gradient") with true. cbv iota.
  unfold init_gradient. erewrite bind_returned by reflexivity.
  cbv zeta. rewrite Hgrads. erewrite bind_returned by reflexivity.
  rewrite Hdir. change (String.eqb "LoRA-GA" "LoRA-One") with false. cbv iota.
  erewrite bind_returned by (unfold run_svd_lowrank; rewrite Hsvd; reflexivity).
  cbv beta iota zeta. rewrite (bind_returned _ _ _ _ _ (Hdirection _)).
  cbv beta iota zeta. unfold gradient_scale. rewrite Hscale, Hdora.
  change (String.eqb "unit" "gd") with false.
  change (String.eqb "unit" "unit") with true. cbv iota.
  st_run. eexists. split; [reflexivity|]. cbn.
  split; [done|]. split; [done|]. split; [done|]. split.
  - intros i j Hj. rewrite entry_slice_cols by lia. done.
  - intros i j Hi. rewrite entry_slice_rows by lia. done.
Qed.

End Initialize.

Lemma unknown_distribution_rejected_witness :
  reinit_lora_modules IntLayer.torch_init IntLayer.svd_lowrank IntLayer.name
    (IntLayer.config "simple" "gaussian" "uniform" "" "LoRA-GA")
    IntLayer.peft_conf None IntLayer.trained_layer
  = (Raised (ValueError "Unknown lora_B initialization: uniform"),
     {| module := {| weight := [[5; 6]; [7; 8]]%Z;
                     lora_A := [[1; 1]]%Z;
                     lora_B := [[0]; [1]]%Z;
                     lora_magnitude_vector := None;
                     scaling := 2%Z |};
        generator := tt |}).
Proof.
  destruct (unknown_distribution_rejected IntLayer.torch_init IntLayer.svd_lowrank
              IntLayer.name (IntLayer.config "simple" "gaussian" "uniform" "" "LoRA-GA")
              IntLayer.peft_conf None IntLayer.trained_layer eq_refl) as (s' & Hrun & _).
  { right. unfold known_distributions. cbn. intros Hin.
    repeat (apply elem_of_cons in Hin as [Hin|Hin]; [discriminate|]).
    by apply elem_of_nil in Hin. }
  rewrite Hrun. vm_compute in Hrun. symmetry. exact Hrun.
Defined.

(** C3, as stated, fails for the mode and the scale: a mode that is none
    of [simple], [svd], [gradient] and a scale that the svd branch does
    not know raise nothing, the call returns; on a layer whose factors are
    not zero the unknown mode even changes the base weight, because the
    final block still subtracts the offset. *)
Lemma unknown_mode_and_scale_accepted :
  (reinit_lora_modules IntLayer.torch_init IntLayer.svd_lowrank IntLayer.name
     (IntLayer.config "gradients" "zeros" "zeros" "unit" "LoRA-GA")
     IntLayer.peft_conf (Some IntLayer.grads) IntLayer.layer).1 = Returned tt /\
  (reinit_lora_modules IntLayer.torch_init IntLayer.svd_lowrank IntLayer.name
     (IntLayer.config "svd" "zeros" "zeros" "Unit" "LoRA-GA")
     IntLayer.peft_conf (Some IntLayer.grads) IntLayer.layer).1 = Returned tt /\
  reinit_lora_modules IntLayer.torch_init IntLayer.svd_lowrank IntLayer.name
     (IntLayer.config "gradients" "zeros" "zeros" "unit" "LoRA-GA")
     IntLayer.peft_conf (Some IntLayer.grads) IntLayer.trained_layer
  = (Returned tt,
     {| module := {| weight := [[5; 6]; [5; 8]]%Z;
                     lora_A := [[1; 0]]%Z;
                     lora_B := [[0]; [1]]%Z;
                     lora_magnitude_vector := None;
                     scaling := 2%Z |};
        generator := tt |}) /\
  weight (module IntLayer.trained_layer) = [[5; 6]; [7; 8]]%Z.
Proof. vm_compute. repeat split; reflexivity. Qed.

(** C6 fails on the code: in simple mode with the [stable] scale the
    rescaling reads the local [m], which only the other branches assign;
    the call raises [UnboundLocalError] and the factors are left as
    sampled, not rescaled. *)
Theorem simple_stable_raises :
  reinit_lora_modules IntLayer.torch_init IntLayer.svd_lowrank IntLayer.name
    (IntLayer.config "simple" "zeros" "zeros" "stable" "LoRA-GA")
    IntLayer.peft_conf None IntLayer.layer
  = (Raised (UnboundLocalError "m"),
     {| module := {| weight := [[5; 6]; [7; 8]]%Z;
                     lora_A := [[0; 0]]%Z;
                     lora_B := [[0]; [0]]%Z;
                     lora_magnitude_vector := None;
                     scaling := 2%Z |};
        generator := tt |}).
Proof. vm_compute. reflexivity. Qed.

Lemma lora_ga_singular_blocks_witness :
  exists s',
    initialize IntLayer.torch_init IntLayer.svd_lowrank IntLayer.name
      (IntLayer.config "gradient" "zeros" "zeros" "unit" "LoRA-GA")
      IntLayer.peft_conf (Some IntLayer.grads) IntLayer.layer = (Returned tt, s') /\
    lora_B (module s') = [[0]; [1]]%Z /\ lora_A (module s') = [[1; 0]]%Z.
Proof.
  destruct (lora_ga_singular_blocks IntLayer.torch_init IntLayer.svd_lowrank
              IntLayer.name (IntLayer.config "gradient" "zeros" "zeros" "unit" "LoRA-GA")
              IntLayer.peft_conf IntLayer.grads [[2; 0]; [0; 1]]%Z IntLayer.layer
              [[1; 0]; [0; 1]]%Z [2; 1]%Z [[1; 0]; [0; 1]]%Z tt 1
              eq_refl eq_refl eq_refl eq_refl eq_refl eq_refl eq_refl)
    as (_ & s' & Hrun & HB & HA & _).
  exists s'. split; [exact Hrun|]. rewrite HB, HA. split; reflexivity.
Defined.

(** C7, as stated, fails for [A]: [A] is not the block of rows
    [rank .. 2*rank] of the transposed [V] that corresponds to the block
    taken for [B].  With rank 1, [U = V = I]: [B] is column 1 of [U], and
    [A] is row 0 of the transposed [V], not row 1. *)
Lemma lora_ga_A_is_not_second_block :
  let s' := (reinit_lora_modules IntLayer.torch_init IntLayer.svd_lowrank IntLayer.name
               (IntLayer.config "gradient" "zeros" "zeros" "unit" "LoRA-GA")
               IntLayer.peft_conf (Some IntLayer.grads) IntLayer.layer).2 in
  lora_B (module s') = slice_cols 1 2 [[1; 0]; [0; 1]]%Z /\
  lora_A (module s') = [[1; 0]]%Z /\
  slice_rows 1 2 (transpose [[1; 0]; [0; 1]]%Z) = [[0; 1]]%Z /\
  lora_A (module s') <> slice_rows 1 2 (transpose [[1; 0]; [0; 1]]%Z).
Proof. vm_compute. repeat split; try reflexivity. discriminate. Qed.

(** * Further properties of the calibration code *)

Section CalibrationFrame.

Context {tensor example output : Type}.
Context (sub_scaled : float -> tensor -> tensor -> tensor).
Context (forward : list (string * tensor) -> list example -> outcome output).
Context (loss_item : output -> float).

Implicit Types (ps : list (string * parameter tensor)) (m : nn_model tensor).

(** X1: the restore of [temporary_weights] writes data only, and only of
    the parameters named in [adapted_weights]: every parameter keeps the
    gradient, the flag and the hooks the block left, and a parameter that
    is not named keeps the data the block left as well. *)
Theorem temporary_weights_frame {A : Type} (adapted : gmap string tensor)
    (eta : float) (body : nn_model tensor -> outcome A * nn_model tensor)
    (model : nn_model tensor) :
  Forall2 (fun np np' =>
             np'.1 = np.1 /\ requires_grad np'.2 = requires_grad np.2 /\
             grad np'.2 = grad np.2 /\ hooks np'.2 = hooks np.2 /\
             (adapted !! np.1 = None -> np' = np))
    (named_parameters
       (body (with_parameters
                (apply_adapted sub_scaled adapted eta (named_parameters model))
                model)).2)
    (named_parameters (temporary_weights sub_scaled adapted eta body model).2) /\
  training (temporary_weights sub_scaled adapted eta body model).2 =
    training (body (with_parameters
                      (apply_adapted sub_scaled adapted eta (named_parameters model))
                      model)).2.
Proof.
  unfold temporary_weights. destruct (body _) as [r model2]. simpl.
  split; [|done]. unfold restore_original.
  apply Forall2_fmap_r, Forall_Forall2_diag, Forall_forall.
  intros [n p] _. simpl.
  destruct (save_original adapted (named_parameters model) ∅ !! n) eqn:Hsaved; simpl.
  - repeat split; try done. intros Hn.
    by rewrite save_original_unadapted, lookup_empty in Hsaved.
  - done.
Qed.

Lemma search_loop_weights (named_grad : gmap string tensor) dataset batch_size
    etas best m :
  NoDup (names (named_parameters m)) ->
  weights (named_parameters
             (search_loop sub_scaled forward loss_item named_grad dataset batch_size
                etas best m).2) =
    weights (named_parameters m).
Proof.
  revert best m. induction etas as [|eta rest IH]; intros best m Hnd; simpl; [done|].
  destruct (search_round sub_scaled forward loss_item named_grad dataset batch_size
              eta best m Hnd) as [_ Hw].
  destruct (temporary_weights _ _ _ _ _) as [[best'|e] m1]; simpl in *; [|done].
  rewrite IH; [done|]. by rewrite <- names_weights, Hw, names_weights.
Qed.

(** X2: when [search_eta] returns, with an eta or with [None], the value
    of every parameter is as it was before the call: every candidate shift
    has been undone. *)
Theorem search_eta_keeps_weights (model : nn_model tensor) (dataset : list example)
    (batch_size : nat) (named_grads : option (gmap string tensor))
    (best_eta : option float) (model' : nn_model tensor) :
  NoDup (names (named_parameters model)) ->
  search_eta sub_scaled forward loss_item model dataset batch_size named_grads
    = (Returned best_eta, model') ->
  weights (named_parameters model') = weights (named_parameters model).
Proof.
  intros Hnd. unfold search_eta. destruct named_grads as [named_grad|]; [|done].
  pose proof (search_loop_weights named_grad dataset batch_size eta_list (inf, None)
                model Hnd) as Hw.
  destruct (search_loop _ _ _ _ _ _ _ _ _) as [[best|e] m']; [|done].
  by intros [= _ <-].
Qed.

Lemma evaluate_eta_best dataset batch_size eta best m best' m' :
  evaluate_eta forward loss_item dataset batch_size eta best m = (Returned best', m') ->
  best' = best \/ best'.2 = Some eta.
Proof.
  unfold evaluate_eta.
  destruct (DataLoader dataset batch_size) as [dataloader|e]; [|discriminate].
  destruct (compute_loss _ _ _ _ _ _) as [[[[|k] loss]|e] m1]; try discriminate.
  destruct (_ <? _)%float; intros [= <- _]; auto.
Qed.

Lemma search_loop_best (named_grad : gmap string tensor) dataset batch_size
    etas best m best' m' :
  search_loop sub_scaled forward loss_item named_grad dataset batch_size etas best m
    = (Returned best', m') ->
  best'.2 = best.2 \/ exists eta, eta ∈ etas /\ best'.2 = Some eta.
Proof.
  revert best m. induction etas as [|eta rest IH]; intros best m; simpl.
  { intros [= <- _]. by left. }
  unfold temporary_weights.
  destruct (evaluate_eta _ _ _ _ _ _ _) as [[best1|e] m1] eqn:Heval; [|discriminate].
  intros Hrest. apply evaluate_eta_best in Heval.
  destruct (IH _ _ Hrest) as [Hsame | (e & He & Hbest)].
  - rewrite Hsame. destruct Heval as [-> | Heta]; [by left|].
    right. exists eta. split; [apply elem_of_cons; by left|done].
  - right. exists e. split; [by apply list_elem_of_further|done].
Qed.

(** X3: an eta that [search_eta] returns is one of the eleven candidates. *)
Theorem search_eta_returns_candidate (model : nn_model tensor)
    (dataset : list example) (batch_size : nat)
    (named_grads : option (gmap string tensor)) (eta : float)
    (model' : nn_model tensor) :
  search_eta sub_scaled forward loss_item model dataset batch_size named_grads
    = (Returned (Some eta), model') ->
  eta ∈ eta_list.
Proof.
  unfold search_eta. destruct named_grads as [named_grad|]; [|discriminate].
  destruct (search_loop _ _ _ _ _ _ _ _ _) as [[best|e] m1] eqn:Hloop; [|discriminate].
  intros [= Hbest _]. apply search_loop_best in Hloop as [Hnone | (e & He & Hsome)].
  - rewrite Hbest in Hnone. discriminate.
  - rewrite Hbest in Hsome. by injection Hsome as ->.
Qed.

(** X4: on an empty dataset [search_eta] raises [ZeroDivisionError]: the
    first candidate sees no batch and [loss /= num] divides by zero. *)
Theorem search_eta_empty_dataset (model : nn_model tensor) (batch_size : nat)
    (named_grad : gmap string tensor) :
  0 < batch_size ->
  (search_eta sub_scaled forward loss_item model [] batch_size (Some named_grad)).1
    = Raised ZeroDivisionError.
Proof.
  intros Hbs. destruct batch_size as [|k]; [lia|]. reflexivity.
Qed.

Lemma search_loop_app (named_grad : gmap string tensor) dataset batch_size
    etas1 etas2 best m :
  search_loop sub_scaled forward loss_item named_grad dataset batch_size
    (etas1 ++ etas2) best m =
  match search_loop sub_scaled forward loss_item named_grad dataset batch_size
          etas1 best m with
  | (Returned best1, m1) =>
      search_loop sub_scaled forward loss_item named_grad dataset batch_size
        etas2 best1 m1
  | (Raised e, m1) => (Raised e, m1)
  end.
Proof.
  revert best m. induction etas1 as [|eta rest IH]; intros best m; simpl; [done|].
  destruct (temporary_weights _ _ _ _ _) as [[best1|e] m1]; [apply IH|done].
Qed.

(** X5: an error raised while a candidate is evaluated ends the search:
    when the candidates before [eta] are all evaluated and the evaluation
    of [eta] raises [e], [search_eta] raises [e]. *)
Theorem search_eta_propagates_failure (named_grad : gmap string tensor)
    (dataset : list example) (batch_size : nat) (L : float -> float)
    (model : nn_model tensor) (pre post : list float) (eta : float) (e : exn) :
  NoDup (names (named_parameters model)) ->
  eta_list = pre ++ eta :: post ->
  (forall eta', eta' ∈ pre ->
     mean_loss forward loss_item
       (shifted_weights sub_scaled named_grad eta' (weights (named_parameters model)))
       dataset batch_size = Returned (L eta')) ->
  mean_loss forward loss_item
    (shifted_weights sub_scaled named_grad eta (weights (named_parameters model)))
    dataset batch_size = Raised e ->
  (search_eta sub_scaled forward loss_item model dataset batch_size
     (Some named_grad)).1 = Raised e.
Proof.
  intros Hnd Hsplit Hpre Hfail. unfold search_eta. rewrite Hsplit, search_loop_app.
  destruct (search_loop_spec sub_scaled forward loss_item named_grad dataset batch_size
              L (weights (named_parameters model)) pre) with
    (seen := @nil float) (best := (inf, @None float)) (m := model)
    as (best1 & m1 & Hrun & Hw & _).
  { by rewrite names_weights. }
  { exact Hpre. }
  { reflexivity. }
  { split; [done|]. intros x Hx. by apply elem_of_nil in Hx. }
  rewrite Hrun. simpl.
  assert (Hnd1 : NoDup (names (named_parameters m1))).
  { by rewrite <- names_weights, Hw, names_weights. }
  destruct (search_round sub_scaled forward loss_item named_grad dataset batch_size
              eta best1 m1 Hnd1) as [Hout _].
  rewrite Hw, Hfail in Hout.
  destruct (temporary_weights _ _ _ _ _) as [r m2]. simpl in Hout. by subst r.
Qed.

End CalibrationFrame.

Lemma search_eta_keeps_weights_witness :
  weights (named_parameters
             (search_eta Toy.sub_scaled Toy.forward Toy.loss_item Toy.model
                Toy.dataset 2 (Some Toy.deltas)).2) =
    [("w", 1%float); ("b", 0.25%float)].
Proof.
  assert (Hnd : NoDup (names (named_parameters Toy.model))).
  { apply (bool_decide_unpack _). vm_compute. reflexivity. }
  destruct (search_eta Toy.sub_scaled Toy.forward Toy.loss_item Toy.model Toy.dataset 2
              (Some Toy.deltas)) as [r model'] eqn:Hrun.
  assert (Hr : r = Returned (Some 0.5%float)).
  { vm_compute in Hrun. congruence. }
  subst r.
  exact (search_eta_keeps_weights Toy.sub_scaled Toy.forward Toy.loss_item
           Toy.model Toy.dataset 2 (Some Toy.deltas) (Some 0.5%float) model' Hnd Hrun).
Defined.

Lemma search_eta_returns_candidate_witness : 0.5%float ∈ eta_list.
Proof.
  destruct (search_eta Toy.sub_scaled Toy.forward Toy.loss_item Toy.model Toy.dataset 2
              (Some Toy.deltas)) as [r model'] eqn:Hrun.
  assert (Hr : r = Returned (Some 0.5%float)).
  { vm_compute in Hrun. congruence. }
  subst r.
  exact (search_eta_returns_candidate Toy.sub_scaled Toy.forward Toy.loss_item
           Toy.model Toy.dataset 2 (Some Toy.deltas) 0.5%float model' Hrun).
Defined.

Lemma search_eta_empty_dataset_witness :
  (search_eta Toy.sub_scaled Toy.forward Toy.loss_item Toy.model [] 2
     (Some Toy.deltas)).1 = Raised ZeroDivisionError.
Proof.
  apply (search_eta_empty_dataset Toy.sub_scaled Toy.forward Toy.loss_item Toy.model 2
           Toy.deltas). lia.
Defined.

Lemma search_eta_propagates_failure_witness :
  (search_eta Toy.sub_scaled Toy.failing_forward Toy.loss_item Toy.model Toy.dataset 2
     (Some Toy.deltas)).1 = Raised (RuntimeError "CUDA out of memory").
Proof.
  assert (Hnd : NoDup (names (named_parameters Toy.model))).
  { apply (bool_decide_unpack _). vm_compute. reflexivity. }
  apply (search_eta_propagates_failure Toy.sub_scaled Toy.failing_forward Toy.loss_item
           Toy.deltas Toy.dataset 2 Toy.L Toy.model [] (List.tl eta_list) 10%float
           (RuntimeError "CUDA out of memory") Hnd).
  - reflexivity.
  - intros eta' Hin. by apply elem_of_nil in Hin.
  - vm_compute. reflexivity.
Defined.

Section GradientEstimatorFrame.

Context {tensor example output : Type}.
Context (tadd : tensor -> tensor -> tensor) (tdiv : tensor -> nat -> tensor).
Context (forward : list (string * tensor) -> list example -> outcome output).
Context (backward :
  list (string * tensor) -> output -> outcome (list (string * tensor))).

Implicit Types (ps : list (string * parameter tensor)) (m : nn_model tensor).
Implicit Types (rd : gmap string tensor).

Lemma gradient_loop_frame handles dataloader num rd m :
  clear_grads (named_parameters
                 (gradient_loop tadd forward backward handles dataloader num rd m).2) =
  clear_grads (named_parameters m).
Proof.
  revert num rd m. induction dataloader as [|batch rest IH]; intros num rd m; simpl; [done|].
  destruct (forward _ batch) as [outputs|e]; [|done].
  destruct (backward _ outputs) as [delivered|e]; [|done].
  pose proof (clear_grads_loss_backward tadd handles delivered (named_parameters m) rd)
    as H1.
  destruct (loss_backward _ _ _ _ _) as [ps1 rd1]. simpl in H1.
  pose proof (clear_grads_record_gradient_hook tadd ps1 rd1) as H2.
  destruct (record_gradient_hook _ _ _) as [ps2 rd2]. simpl in H2.
  rewrite IH. simpl. by rewrite clear_grads_idemp, H2, H1.
Qed.

Lemma register_hooks_weights next ps :
  weights (register_hooks next ps).2 = weights ps.
Proof.
  revert next. induction ps as [|[n p] ps IH]; intros next; simpl; [done|].
  destruct (requires_grad p); [|done].
  specialize (IH (S next)). destruct (register_hooks (S next) ps) as [r rest'].
  simpl in *. by rewrite IH.
Qed.

Lemma weights_remove_hooks handles ps : weights (remove_hooks handles ps) = weights ps.
Proof.
  unfold weights, remove_hooks. rewrite <- list_fmap_compose. by apply list_fmap_ext.
Qed.

(** X6: [estimate_gradient] never changes the value or the name of a
    parameter, whether it returns the gradients or raises. *)
Theorem estimate_gradient_keeps_weights (model : nn_model tensor)
    (dataset : list example) (batch_size : nat) :
  weights (named_parameters
             (estimate_gradient tadd tdiv forward backward model dataset batch_size).2) =
    weights (named_parameters model).
Proof.
  unfold estimate_gradient. simpl.
  pose proof (register_hooks_weights (fresh_handle (named_parameters model))
                (named_parameters model)) as Hreg.
  destruct (register_hooks _ _) as [[handles|e] ps_r]; simpl in Hreg; [|done].
  destruct (DataLoader dataset batch_size) as [dataloader|e]; [|done].
  pose proof (gradient_loop_frame handles dataloader 0 ∅
                (with_parameters ps_r (train model))) as Hloop.
  destruct (gradient_loop _ _ _ _ _ _ _ _) as [[[num rd]|e] m1]; simpl in *.
  - by rewrite weights_remove_hooks, <- weights_clear_grads, Hloop, weights_clear_grads.
  - by rewrite <- weights_clear_grads, Hloop, weights_clear_grads.
Qed.

Lemma remove_hooks_registered handles ps ps_r :
  Forall2 (hook_added handles) ps ps_r ->
  (forall n p h, (n, p) ∈ ps -> h ∈ hooks p -> h ∉ handles) ->
  remove_hooks handles ps_r = ps.
Proof.
  intros Hadd Hold.
  induction Hadd as [|[n p] [n' p'] ps ps_r (Hname & h & Hh & Hp) Hrest IH]; [done|].
  simpl in *. subst n' p'. unfold remove_hooks in *. simpl. f_equal.
  - f_equal. destruct p as [d r g hs]. unfold set_hooks. simpl. f_equal.
    rewrite filter_app, filter_cons_False, filter_nil, app_nil_r by tauto.
    apply filter_keeps_all. intros h' Hh'.
    apply (Hold n (Parameter_ d r g hs) h'); [apply elem_of_cons; by left|done].
  - apply IH. intros n0 p0 h0 Hin. apply (Hold n0 p0 h0). by apply list_elem_of_further.
Qed.

(** X7: on an empty dataset [estimate_gradient] returns an empty dict (no
    division takes place) and leaves the model as it was, in training
    mode, with the hooks it registered removed. *)
Theorem estimate_gradient_empty_dataset (model : nn_model tensor) (batch_size : nat) :
  Forall (fun np => requires_grad np.2 = true) (named_parameters model) ->
  0 < batch_size ->
  estimate_gradient tadd tdiv forward backward model [] batch_size
    = (Returned ∅, train model).
Proof.
  intros Hall Hbs. unfold estimate_gradient. simpl.
  destruct (register_hooks_succeeds (fresh_handle (named_parameters model))
              (named_parameters model) Hall) as [ps_r Hreg].
  rewrite Hreg. apply register_hooks_returned in Hreg as [_ Hadd].
  destruct batch_size as [|k]; [lia|]. simpl. rewrite fmap_empty.
  rewrite (remove_hooks_registered _ (named_parameters model)); [done|done|].
  intros n p h Hin Hh. rewrite elem_of_seq.
  pose proof (hooks_below_fresh_handle _ n p h Hin Hh). lia.
Qed.

Lemma record_gradient_hook_keys ps rd n :
  is_Some ((record_gradient_hook tadd ps rd).2 !! n) ->
  is_Some (rd !! n) \/ n ∈ names ps.
Proof.
  revert rd. induction ps as [|[n0 p0] ps IH]; intros rd; simpl; [by left|].
  unfold names. simpl. rewrite elem_of_cons.
  destruct (requires_grad p0), (grad p0) as [g|].
  all: match goal with
       | |- context [record_gradient_hook tadd ?l ?r] =>
           specialize (IH r); destruct (record_gradient_hook tadd l r)
       end; simpl in *; intros Hsome; destruct (IH Hsome) as [Hrd|Hin]; auto.
  destruct (decide (n = n0)) as [->|Hne]; [auto|].
  left. destruct (rd !! n0); by rewrite lookup_insert_ne in Hrd.
Qed.

Lemma names_frame ps ps' : clear_grads ps' = clear_grads ps -> names ps' = names ps.
Proof. intros Heq. by rewrite <- names_clear_grads, Heq, names_clear_grads. Qed.

Lemma loss_backward_keys handles delivered ps rd n :
  is_Some ((loss_backward tadd handles delivered ps rd).2 !! n) ->
  is_Some (rd !! n) \/ n ∈ names ps.
Proof.
  revert ps rd. induction delivered as [|[n' g] rest IH]; intros ps rd; simpl; [by left|].
  destruct (lookup_parameter n' ps) as [p|]; [|apply IH].
  destruct (requires_grad p); [|apply IH].
  destruct (has_hook handles p).
  - pose proof (clear_grads_record_gradient_hook tadd ps rd) as Hframe.
    pose proof (record_gradient_hook_keys ps rd n) as Hkeys.
    destruct (record_gradient_hook tadd ps rd) as [ps1 rd1]. simpl in *.
    intros Hsome. destruct (IH _ _ Hsome) as [Hrd|Hin]; [by apply Hkeys|].
    right. rewrite <- (names_frame ps ps1) by done.
    by rewrite <- (names_frame ps1 (accumulate_grad tadd n' g ps1))
      by apply clear_grads_accumulate_grad.
  - intros Hsome. destruct (IH _ _ Hsome) as [Hrd|Hin]; [by left|].
    right. by rewrite <- (names_frame ps (accumulate_grad tadd n' g ps))
      by apply clear_grads_accumulate_grad.
Qed.

Lemma gradient_loop_keys handles dataloader num rd m num' rd' m' n :
  gradient_loop tadd forward backward handles dataloader num rd m
    = (Returned (num', rd'), m') ->
  is_Some (rd' !! n) -> is_Some (rd !! n) \/ n ∈ names (named_parameters m).
Proof.
  revert num rd m. induction dataloader as [|batch rest IH]; intros num rd m; simpl.
  { intros [= _ <- _]. by left. }
  destruct (forward _ batch) as [outputs|e]; [|discriminate].
  destruct (backward _ outputs) as [delivered|e]; [|discriminate].
  pose proof (clear_grads_loss_backward tadd handles delivered (named_parameters m) rd)
    as H1.
  pose proof (loss_backward_keys handles delivered (named_parameters m) rd n) as K1.
  destruct (loss_backward _ _ _ _ _) as [ps1 rd1]. simpl in H1, K1.
  pose proof (clear_grads_record_gradient_hook tadd ps1 rd1) as H2.
  pose proof (record_gradient_hook_keys ps1 rd1 n) as K2.
  destruct (record_gradient_hook _ _ _) as [ps2 rd2]. simpl in H2, K2.
  intros Hrun Hsome. destruct (IH _ _ _ Hrun Hsome) as [Hrd|Hin].
  - destruct (K2 Hrd) as [Hrd1|Hin]; [by apply K1|].
    right. by rewrite <- (names_frame _ ps1).
  - right. simpl in Hin. rewrite names_clear_grads in Hin.
    rewrite <- (names_frame _ ps1) by done. by rewrite <- (names_frame ps1 ps2).
Qed.

(** X8: every key of the dict [estimate_gradient] returns is the name of a
    parameter of the model. *)
Theorem estimate_gradient_keys_are_parameters (model : nn_model tensor)
    (dataset : list example) (batch_size : nat)
    (named_grads : gmap string tensor) (model' : nn_model tensor) (n : string) :
  estimate_gradient tadd tdiv forward backward model dataset batch_size
    = (Returned named_grads, model') ->
  is_Some (named_grads !! n) ->
  n ∈ names (named_parameters model).
Proof.
  unfold estimate_gradient. simpl.
  pose proof (register_hooks_weights (fresh_handle (named_parameters model))
                (named_parameters model)) as Hreg.
  destruct (register_hooks _ _) as [[handles|e] ps_r]; [|discriminate].
  destruct (DataLoader dataset batch_size) as [dataloader|e]; [|discriminate].
  destruct (gradient_loop _ _ _ _ _ _ _ _) as [[[num rd]|e] m1] eqn:Hloop; [|discriminate].
  intros [= <- _]. rewrite lookup_fmap, fmap_is_Some. intros Hsome.
  destruct (gradient_loop_keys _ _ _ _ _ _ _ _ n Hloop Hsome) as [Hempty|Hin].
  - rewrite lookup_empty in Hempty. by destruct Hempty.
  - simpl in Hin, Hreg. by rewrite <- names_weights, <- Hreg, names_weights.
Qed.

Lemma gradient_loop_clears handles dataloader num rd m r m' :
  gradient_loop tadd forward backward handles dataloader num rd m = (Returned r, m') ->
  dataloader <> [] \/ Forall (fun np => grad np.2 = None) (named_parameters m) ->
  Forall (fun np => grad np.2 = None) (named_parameters m').
Proof.
  revert num rd m. induction dataloader as [|batch rest IH]; intros num rd m; simpl.
  { intros [= _ <-] [Hne|Hall]; done. }
  destruct (forward _ batch) as [outputs|e]; [|discriminate].
  destruct (backward _ outputs) as [delivered|e]; [|discriminate].
  destruct (loss_backward _ _ _ _ _) as [ps1 rd1].
  destruct (record_gradient_hook _ _ _) as [ps2 rd2].
  intros Hrun _. apply (IH _ _ _ Hrun). right. simpl.
  unfold clear_grads. apply Forall_fmap, Forall_forall. done.
Qed.

Lemma batch_sampler_nonempty (batch_size : nat) (batch dataset : list example) :
  batch <> [] \/ dataset <> [] -> batch_sampler batch_size batch dataset <> [].
Proof.
  revert batch. induction dataset as [|x rest IH]; intros batch Hne; simpl.
  { destruct batch; [by destruct Hne|done]. }
  destruct (Nat.eqb _ _); [done|]. apply IH. left. by destruct batch.
Qed.

(** X9: when [estimate_gradient] returns from a dataset that is not empty,
    no parameter of the model has a pending gradient. *)
Theorem estimate_gradient_clears_grads (model : nn_model tensor)
    (dataset : list example) (batch_size : nat)
    (named_grads : gmap string tensor) (model' : nn_model tensor) :
  estimate_gradient tadd tdiv forward backward model dataset batch_size
    = (Returned named_grads, model') ->
  dataset <> [] ->
  Forall (fun np => grad np.2 = None) (named_parameters model').
Proof.
  unfold estimate_gradient. simpl.
  destruct (register_hooks _ _) as [[handles|e] ps_r]; [|discriminate].
  destruct batch_size as [|k]; [discriminate|]. simpl.
  destruct (gradient_loop _ _ _ _ _ _ _ _) as [[[num rd]|e] m1] eqn:Hloop; [|discriminate].
  intros [= _ <-] Hne. simpl.
  apply gradient_loop_clears in Hloop.
  2:{ left. apply batch_sampler_nonempty. by right. }
  unfold remove_hooks. apply Forall_fmap. eapply Forall_impl; [exact Hloop|]. done.
Qed.

Lemma gradient_loop_failure handles pre batch post num rd m e :
  Forall (fun b => exists outputs delivered,
            forward (weights (named_parameters m)) b = Returned outputs /\
            backward (weights (named_parameters m)) outputs = Returned delivered) pre ->
  (forward (weights (named_parameters m)) batch = Raised e \/
   exists outputs,
     forward (weights (named_parameters m)) batch = Returned outputs /\
     backward (weights (named_parameters m)) outputs = Raised e) ->
  (gradient_loop tadd forward backward handles (pre ++ batch :: post) num rd m).1
    = Raised e.
Proof.
  revert num rd m. induction pre as [|b pre IH]; intros num rd m Hpre Hfail; simpl.
  { destruct Hfail as [-> | (outputs & -> & ->)]; done. }
  apply Forall_cons in Hpre as [(outputs & delivered & Hf & Hb) Hpre].
  rewrite Hf, Hb.
  pose proof (clear_grads_loss_backward tadd handles delivered (named_parameters m) rd)
    as H1.
  destruct (loss_backward _ _ _ _ _) as [ps1 rd1]. simpl in H1.
  pose proof (clear_grads_record_gradient_hook tadd ps1 rd1) as H2.
  destruct (record_gradient_hook _ _ _) as [ps2 rd2]. simpl in H2.
  assert (Hw : weights (clear_grads ps2) = weights (named_parameters m)).
  { by rewrite H2, H1, weights_clear_grads. }
  apply IH; simpl; by rewrite Hw.
Qed.

(** X10: a batch that fails ends [estimate_gradient] with its error, it is
    not skipped: when the batches before it pass and its forward or
    backward pass raises [e], [estimate_gradient] raises [e]. *)
Theorem estimate_gradient_propagates_failure (model : nn_model tensor)
    (dataset : list example) (batch_size : nat)
    (pre : list (list example)) (batch : list example) (post : list (list example))
    (e : exn) :
  Forall (fun np => requires_grad np.2 = true) (named_parameters model) ->
  DataLoader dataset batch_size = Returned (pre ++ batch :: post) ->
  Forall (fun b => exists outputs delivered,
            forward (weights (named_parameters model)) b = Returned outputs /\
            backward (weights (named_parameters model)) outputs = Returned delivered)
         pre ->
  (forward (weights (named_parameters model)) batch = Raised e \/
   exists outputs,
     forward (weights (named_parameters model)) batch = Returned outputs /\
     backward (weights (named_parameters model)) outputs = Raised e) ->
  (estimate_gradient tadd tdiv forward backward model dataset batch_size).1 = Raised e.
Proof.
  intros Hall Hdl Hpre Hfail. unfold estimate_gradient. simpl.
  destruct (register_hooks_succeeds (fresh_handle (named_parameters model))
              (named_parameters model) Hall) as [ps_r Hreg].
  pose proof (register_hooks_weights (fresh_handle (named_parameters model))
                (named_parameters model)) as Hw.
  rewrite Hreg in *. simpl in Hw. rewrite Hdl.
  pose proof (gradient_loop_failure
                (seq (fresh_handle (named_parameters model))
                     (length (named_parameters model)))
                pre batch post 0 ∅ (with_parameters ps_r (train model)) e) as Hloop.
  simpl in Hloop. rewrite Hw in Hloop. specialize (Hloop Hpre Hfail).
  destruct (gradient_loop _ _ _ _ _ _ _ _) as [[r|e'] m1]; simpl in Hloop; [done|].
  by injection Hloop as ->.
Qed.

Lemma record_gradient_hook_nothing_pending ps rd :
  Forall (fun np => requires_grad np.2 = true -> grad np.2 = None) ps ->
  record_gradient_hook tadd ps rd = (ps, rd).
Proof.
  induction ps as [|[n p] ps IH]; intros Hall; simpl; [done|].
  apply Forall_cons in Hall as [Hp Hall]. simpl in Hp. rewrite (IH Hall).
  destruct (requires_grad p); [|done]. by rewrite Hp.
Qed.

Lemma record_gradient_hook_leaves_nothing ps rd :
  Forall (fun np => requires_grad np.2 = true -> grad np.2 = None)
         (record_gradient_hook tadd ps rd).1.
Proof.
  revert rd. induction ps as [|[n p] ps IH]; intros rd; simpl; [constructor|].
  destruct (requires_grad p) eqn:Hr, (grad p) eqn:Hg.
  all: match goal with
       | |- context [record_gradient_hook tadd ?l ?r] =>
           specialize (IH r); destruct (record_gradient_hook tadd l r)
       end; simpl in *; constructor; simpl; try done.
  all: rewrite Hr; done.
Qed.

(** X11: the recording hook moves each pending gradient once: run again
    right after itself it changes neither the model nor the dict, so the
    call of the hook after [backward()] cannot record a gradient twice. *)
Theorem record_gradient_hook_idempotent ps rd :
  record_gradient_hook tadd (record_gradient_hook tadd ps rd).1
    (record_gradient_hook tadd ps rd).2 = record_gradient_hook tadd ps rd.
Proof.
  rewrite record_gradient_hook_nothing_pending
    by apply record_gradient_hook_leaves_nothing.
  by destruct (record_gradient_hook tadd ps rd).
Qed.

End GradientEstimatorFrame.

Lemma estimate_gradient_empty_dataset_witness :
  estimate_gradient Toy.tadd Toy.tdiv Toy.forward Toy.backward Toy.model [] 2
    = (Returned ∅, train Toy.model).
Proof.
  apply (estimate_gradient_empty_dataset Toy.tadd Toy.tdiv Toy.forward Toy.backward
           Toy.model 2).
  - repeat constructor.
  - lia.
Defined.

Lemma estimate_gradient_keys_are_parameters_witness :
  "w" ∈ names (named_parameters Toy.model).
Proof.
  destruct (estimate_gradient Toy.tadd Toy.tdiv Toy.forward Toy.backward Toy.model
              Toy.dataset 2) as [[named_grads|e] model'] eqn:Hrun;
    [|vm_compute in Hrun; discriminate].
  apply (estimate_gradient_keys_are_parameters Toy.tadd Toy.tdiv Toy.forward
           Toy.backward Toy.model Toy.dataset 2 named_grads model' "w" Hrun).
  vm_compute in Hrun. injection Hrun as <- _. vm_compute. by eexists.
Defined.

Lemma estimate_gradient_clears_grads_witness :
  exists named_grads model',
    estimate_gradient Toy.tadd Toy.tdiv Toy.forward Toy.backward Toy.model
      Toy.dataset 2 = (Returned named_grads, model') /\
    Forall (fun np => grad np.2 = None) (named_parameters model').
Proof.
  destruct (estimate_gradient Toy.tadd Toy.tdiv Toy.forward Toy.backward Toy.model
              Toy.dataset 2) as [[named_grads|e] model'] eqn:Hrun;
    [|vm_compute in Hrun; discriminate].
  exists named_grads, model'. split; [reflexivity|].
  apply (estimate_gradient_clears_grads Toy.tadd Toy.tdiv Toy.forward Toy.backward
           Toy.model Toy.dataset 2 named_grads model' Hrun).
  discriminate.
Defined.

Lemma estimate_gradient_propagates_failure_witness :
  (estimate_gradient Toy.tadd Toy.tdiv Toy.failing_forward Toy.backward Toy.model
     Toy.dataset 2).1 = Raised (RuntimeError "CUDA out of memory").
Proof.
  apply (estimate_gradient_propagates_failure Toy.tadd Toy.tdiv Toy.failing_forward
           Toy.backward Toy.model Toy.dataset 2 [] [1; 2] [[3]]
           (RuntimeError "CUDA out of memory")).
  - repeat constructor.
  - reflexivity.
  - constructor.
  - left. reflexivity.
Defined.

(** ** The calibration subset and its batches *)

Lemma batch_sampler_join {A : Type} (batch_size : nat) (batch dataset : list A) :
  mjoin (batch_sampler batch_size batch dataset) = batch ++ dataset.
Proof.
  revert batch. induction dataset as [|x rest IH]; intros batch; simpl.
  { destruct batch; simpl; by rewrite ?app_nil_r. }
  destruct (Nat.eqb _ _); simpl; rewrite IH; simpl; by rewrite <- app_assoc.
Qed.

Lemma batch_sampler_full {A : Type} (batch_size : nat) (dataset batch : list A)
    (k : nat) :
  length batch < batch_size ->
  length batch + length dataset = k * batch_size ->
  Forall (fun b => length b = batch_size) (batch_sampler batch_size batch dataset) /\
  length (batch_sampler batch_size batch dataset) = k.
Proof.
  revert batch k. induction dataset as [|x rest IH]; intros batch k Hlt Hlen; simpl in *.
  { assert (k = 0) as -> by nia. destruct batch; simpl in *; [done|lia]. }
  rewrite length_app. simpl.
  destruct (Nat.eqb_spec (length batch + 1) batch_size) as [Heq|Hne].
  - destruct k as [|k]; [lia|].
    destruct (IH [] k) as [Hall Hcount]; simpl; [lia|nia|].
    split; [|by rewrite Hcount].
    constructor; [|done]. rewrite length_app. simpl. lia.
  - apply IH; rewrite length_app; simpl; lia.
Qed.

(** X12: when the training set holds at least [bsz * iters] examples, the
    calibration subset [run_exp] passes to [estimate_gradient] is cut by
    the data loader into exactly [iters] batches of [bsz] examples each,
    which together are the first [bsz * iters] examples in their order. *)
Theorem calibration_subset_batches {A : Type} (train_set : list A) (bsz iters : nat) :
  0 < bsz ->
  bsz * iters <= length train_set ->
  exists dataloader,
    DataLoader (calibration_subset train_set bsz iters) bsz = Returned dataloader /\
    length dataloader = iters /\
    Forall (fun batch => length batch = bsz) dataloader /\
    mjoin dataloader = take (bsz * iters) train_set.
Proof.
  intros Hbsz Hlen. unfold DataLoader, calibration_subset.
  destruct bsz as [|k]; [lia|]. eexists. split; [reflexivity|].
  destruct (batch_sampler_full (S k) (take (S k * iters) train_set) [] iters)
    as [Hall Hcount]; simpl; [lia|rewrite length_take; lia|].
  split; [done|]. split; [done|]. by rewrite batch_sampler_join.
Qed.

Lemma calibration_subset_batches_witness :
  DataLoader (calibration_subset [1; 2; 3; 4; 5; 6; 7] 2 3) 2
    = Returned [[1; 2]; [3; 4]; [5; 6]].
Proof.
  destruct (calibration_subset_batches [1; 2; 3; 4; 5; 6; 7] 2 3)
    as (dataloader & Hrun & _); [lia|simpl; lia|].
  rewrite Hrun. vm_compute in Hrun. by injection Hrun as <-.
Defined.

(** * Names of modules and parameters *)

Lemma string_append_cons (c : ascii) (s t : string) :
  String.append (String c s) t = String c (String.append s t).
Proof. reflexivity. Qed.

Lemma string_append_nil_l (t : string) : String.append "" t = t.
Proof. reflexivity. Qed.

Lemma string_append_nil_r (s : string) : String.append s "" = s.
Proof.
  induction s as [|c s IH]; [done|]. by rewrite string_append_cons, IH.
Qed.

Lemma string_append_assoc (s t u : string) :
  String.append (String.append s t) u = String.append s (String.append t u).
Proof.
  induction s as [|c s IH]; [done|]. by rewrite !string_append_cons, IH.
Qed.

Lemma split_dot_nonempty (s piece : string) : split_dot s piece <> [].
Proof.
  revert piece. induction s as [|c s IH]; intros piece; simpl; [done|].
  destruct (Ascii.eqb c "."); [done|apply IH].
Qed.

Lemma concat_split_dot (s piece : string) :
  String.concat "." (split_dot s piece) = String.append piece s.
Proof.
  revert piece. induction s as [|c s IH]; intros piece; simpl.
  { by rewrite string_append_nil_r. }
  destruct (Ascii.eqb_spec c ".") as [->|Hne].
  - specialize (IH ""). pose proof (split_dot_nonempty s "") as Hne.
    destruct (split_dot s "") as [|x xs]; [done|].
    cbn [String.concat] in *. rewrite IH. reflexivity.
  - rewrite IH, string_append_assoc. reflexivity.
Qed.

(** X13: joining the pieces of [name.split(".")] with dots gives the name
    back. *)
Theorem join_split_dot (name : string) :
  String.concat "." (split_dot name "") = name.
Proof. by rewrite concat_split_dot. Qed.

Lemma contains_dot_cons (c : ascii) (s : string) :
  contains "." (String c s) = Ascii.eqb c "." || contains "." s.
Proof.
  cbn [contains String.prefix].
  destruct (Ascii.eqb_spec c ".") as [->|Hne].
  - destruct (ascii_dec "." ".") as [_|Hne]; [by destruct s|done].
  - destruct (ascii_dec "." c) as [<-|_]; done.
Qed.

Lemma split_dot_component (a t piece : string) :
  contains "." a = false ->
  split_dot (String.append a (String "." t)) piece
    = String.append piece a :: split_dot t "".
Proof.
  revert piece. induction a as [|c a IH]; intros piece Ha.
  { cbn. by rewrite string_append_nil_r. }
  rewrite contains_dot_cons in Ha. apply orb_false_elim in Ha as [Hc Ha].
  rewrite string_append_cons. cbn [split_dot]. rewrite Hc, IH by done.
  by rewrite string_append_assoc.
Qed.

Lemma split_dot_last_component (a piece : string) :
  contains "." a = false -> split_dot a piece = [String.append piece a].
Proof.
  revert piece. induction a as [|c a IH]; intros piece Ha.
  { cbn. by rewrite string_append_nil_r. }
  rewrite contains_dot_cons in Ha. apply orb_false_elim in Ha as [Hc Ha].
  cbn [split_dot]. rewrite Hc, IH by done.
  by rewrite string_append_assoc.
Qed.

(** X14: the gradient of a layer is looked up under the name of the layer
    without its first two components, followed by [.weight]; a name of one
    or two components is looked up under [.weight] alone. *)
Theorem grad_name_of_strips_two_components (a b rest : string) :
  contains "." a = false ->
  contains "." b = false ->
  grad_name_of (String.append a (String "." (String.append b (String "." rest))))
    = String.append rest ".weight" /\
  grad_name_of (String.append a (String "." b)) = ".weight" /\
  grad_name_of a = ".weight".
Proof.
  intros Ha Hb. unfold grad_name_of. repeat split.
  - rewrite !split_dot_component by done.
    change (drop 2 (?x :: ?y :: ?l)) with l. by rewrite concat_split_dot.
  - rewrite split_dot_component, split_dot_last_component by done. reflexivity.
  - rewrite split_dot_last_component by done. reflexivity.
Qed.

Lemma grad_name_of_strips_two_components_witness :
  grad_name_of "base_model.model.model.layers.0.self_attn.q_proj"
    = "model.layers.0.self_attn.q_proj.weight".
Proof.
  exact (proj1 (grad_name_of_strips_two_components "base_model" "model"
                  "model.layers.0.self_attn.q_proj" eq_refl eq_refl)).
Defined.

(** ** The searches over [model.named_modules()] *)

Lemma contains_suffix (sub pre t : string) :
  contains sub t = true -> contains sub (String.append pre t) = true.
Proof.
  intros Ht. induction pre as [|c pre IH]; [done|].
  rewrite string_append_cons. cbn [contains]. rewrite IH. by destruct (String.prefix _ _).
Qed.

Lemma last_cons_nonempty {A : Type} (x d : A) (l : list A) :
  l <> [] -> List.last (x :: l) d = List.last l d.
Proof. by destruct l. Qed.

Lemma last_split_dot_suffix (s piece : string) :
  exists pre,
    String.append piece s = String.append pre (List.last (split_dot s piece) "").
Proof.
  revert piece. induction s as [|c s IH]; intros piece.
  { exists "". cbn. by rewrite string_append_nil_r. }
  cbn [split_dot]. destruct (Ascii.eqb_spec c ".") as [->|Hne].
  - rewrite last_cons_nonempty by apply split_dot_nonempty.
    destruct (IH "") as [pre Hpre]. exists (String.append piece (String "." pre)).
    rewrite string_append_assoc. rewrite ?string_append_cons, ?string_append_nil_l. f_equal. f_equal. exact Hpre.
  - destruct (IH (String.append piece (String c ""))) as [pre Hpre].
    exists pre. rewrite <- Hpre, string_append_assoc. reflexivity.
Qed.

Lemma contains_dot_append (p : string) (c : ascii) :
  contains "." p = false -> Ascii.eqb c "." = false ->
  contains "." (String.append p (String c "")) = false.
Proof.
  intros Hp Hc. induction p as [|c' p IH].
  { rewrite ?string_append_cons, ?string_append_nil_l. rewrite contains_dot_cons, Hc. reflexivity. }
  rewrite contains_dot_cons in Hp. apply orb_false_elim in Hp as [Hc' Hp].
  rewrite ?string_append_cons, ?string_append_nil_l. by rewrite contains_dot_cons, Hc', IH.
Qed.

Lemma last_split_dot_no_dot (s piece : string) :
  contains "." piece = false ->
  contains "." (List.last (split_dot s piece) "") = false.
Proof.
  revert piece. induction s as [|c s IH]; intros piece Hp; [done|].
  cbn [split_dot]. destruct (Ascii.eqb c ".") eqn:Hc.
  - rewrite last_cons_nonempty by apply split_dot_nonempty. by apply IH.
  - apply IH. by apply contains_dot_append.
Qed.

Lemma contains_last_component (sub name : string) :
  contains sub (last_component name) = true -> contains sub name = true.
Proof.
  unfold last_component. destruct (last_split_dot_suffix name "") as [pre Hpre].
  rewrite string_append_nil_l in Hpre. intros Hsub. rewrite Hpre. by apply contains_suffix.
Qed.

Lemma elem_of_collect_linear_modules (named_modules : list (string * module_class))
    (module_names : gset string) (x : string) :
  x ∈ collect_linear_modules named_modules module_names <->
  x ∈ module_names \/
  exists name module,
    (name, module) ∈ named_modules /\ is_target_linear name module = true /\
    x = last_component name.
Proof.
  revert module_names. induction named_modules as [|[name module] rest IH];
    intros module_names; simpl.
  { split; [by left|]. intros [?|(? & ? & Hin & _)]; [done|by apply elem_of_nil in Hin]. }
  destruct (is_target_linear name module) eqn:Htarget; rewrite IH; clear IH.
  - rewrite elem_of_union, elem_of_singleton. split.
    + intros [[->|?]|(n & m & Hin & Ht & Hx)]; [right|by left|right].
      * exists name, module. split; [apply elem_of_cons; by left|done].
      * exists n, m. split; [by apply list_elem_of_further|done].
    + intros [?|(n & m & Hin & Ht & Hx)]; [left; by right|].
      apply elem_of_cons in Hin as [[= -> ->]|Hin]; [left; by left|].
      right. by exists n, m.
  - split.
    + intros [?|(n & m & Hin & Ht & Hx)]; [by left|right].
      exists n, m. split; [by apply list_elem_of_further|done].
    + intros [?|(n & m & Hin & Ht & Hx)]; [by left|].
      apply elem_of_cons in Hin as [[= -> ->]|Hin]; [congruence|].
      right. by exists n, m.
Qed.

(** X15: [find_all_linear_modules] returns exactly the last name
    components of the linear modules whose full name contains neither
    [lm_head] nor [embed_tokens]. *)
Theorem find_all_linear_modules_spec (named_modules : list (string * module_class))
    (x : string) :
  x ∈ find_all_linear_modules named_modules <->
  exists name out_features in_features,
    (name, TorchLinear out_features in_features) ∈ named_modules /\
    contains "lm_head" name = false /\ contains "embed_tokens" name = false /\
    x = last_component name.
Proof.
  unfold find_all_linear_modules. rewrite elem_of_collect_linear_modules. split.
  - intros [Hin|(name & module & Hin & Ht & ->)]; [by apply elem_of_empty in Hin|].
    destruct module as [o i|]; [|discriminate]. simpl in Ht.
    apply negb_true_iff, orb_false_elim in Ht as [H1 H2].
    apply orb_false_elim in H2 as [H2 _]. by exists name, o, i.
  - intros (name & o & i & Hin & H1 & H2 & ->). right.
    exists name, (TorchLinear o i). split; [done|]. split; [|done].
    simpl. by rewrite H1, H2.
Qed.

(** X16: no name that [find_all_linear_modules] returns contains [lm_head]
    or [embed_tokens], and none contains a dot. *)
Theorem find_all_linear_modules_excludes_output_layers
    (named_modules : list (string * module_class)) (x : string) :
  x ∈ find_all_linear_modules named_modules ->
  contains "lm_head" x = false /\ contains "embed_tokens" x = false /\
  contains "." x = false.
Proof.
  unfold find_all_linear_modules. rewrite elem_of_collect_linear_modules.
  intros [Hin|(name & module & _ & Ht & ->)]; [by apply elem_of_empty in Hin|].
  destruct module as [o i|]; [|discriminate]. simpl in Ht.
  apply negb_true_iff, orb_false_elim in Ht as [H1 H2].
  apply orb_false_elim in H2 as [H2 _]. repeat split.
  - destruct (contains "lm_head" (last_component name)) eqn:Hc; [|done].
    apply contains_last_component in Hc. congruence.
  - destruct (contains "embed_tokens" (last_component name)) eqn:Hc; [|done].
    apply contains_last_component in Hc. congruence.
  - by apply last_split_dot_no_dot.
Qed.

Lemma find_all_linear_modules_excludes_output_layers_witness :
  contains "lm_head" "q_proj" = false /\ contains "embed_tokens" "q_proj" = false /\
  contains "." "q_proj" = false.
Proof.
  apply (find_all_linear_modules_excludes_output_layers
           [("model.layers.0.self_attn.q_proj", TorchLinear 4 4);
            ("model.layers.0.self_attn", OtherClass);
            ("lm_head", TorchLinear 8 4)]).
  apply (bool_decide_unpack _). vm_compute. reflexivity.
Defined.

(** X17: [find_hidden_state_size] returns [None] exactly when the model has
    no linear module, and otherwise the smaller dimension of the weight of
    the first linear module in the order of [named_modules()]. *)
Theorem find_hidden_state_size_spec (named_modules : list (string * module_class)) :
  (find_hidden_state_size named_modules = None <->
   Forall (fun nm => nm.2 = OtherClass) named_modules) /\
  (forall pre name out_features in_features post,
     named_modules = pre ++ (name, TorchLinear out_features in_features) :: post ->
     Forall (fun nm => nm.2 = OtherClass) pre ->
     find_hidden_state_size named_modules = Some (Nat.min out_features in_features)).
Proof.
  split.
  - induction named_modules as [|[n [o i|]] rest IH]; simpl.
    + split; [constructor|done].
    + split; [done|]. intros H. by apply Forall_cons in H as [? _].
    + rewrite IH. split; [by constructor|]. intros H. by apply Forall_cons in H as [_ ?].
  - intros pre name o i post -> Hpre.
    induction Hpre as [|[n c] pre Hc _ IH]; simpl; [done|].
    simpl in Hc. by subst c.
Qed.

Lemma find_hidden_state_size_spec_witness :
  find_hidden_state_size
    [("model", OtherClass); ("model.layers.0.q_proj", TorchLinear 8 4);
     ("lm_head", TorchLinear 2 4)] = Some 4.
Proof.
  apply (proj2 (find_hidden_state_size_spec _) [("model", OtherClass)]
           "model.layers.0.q_proj" 8 4 [("lm_head", TorchLinear 2 4)]).
  - reflexivity.
  - repeat constructor.
Defined.

(** ** What [reinit_lora_modules] leaves alone *)

Section InitializeFrame.

Context {R : Type} `{!Scalar R} {rng : Type}.
Context (torch_init : init_fn R -> matrix R -> rng -> matrix R * rng).
Context (svd_lowrank :
  matrix R -> nat -> nat -> rng -> (matrix R * vector R * matrix R) * rng).

Implicit Types (s : state R rng) (init_config : InitConfig R) (peft_conf : PeftConfig R).

Lemma keeps_bind {A B : Type} (c : St.M (state R rng) A) (k : A -> St.M (state R rng) B) :
  keeps_base_weight c -> (forall a, keeps_base_weight (k a)) ->
  keeps_base_weight (c ≫= k).
Proof.
  intros Hc Hk s. specialize (Hc s). unfold mbind, St_bind, St.bind.
  destruct (c s) as [[a|e] s1]; [|exact Hc].
  destruct (Hk a s1) as [Hw Hs]. cbn in Hc. destruct Hc as [Hw1 Hs1].
  split; congruence.
Qed.

Lemma keeps_ret {A : Type} (a : A) : keeps_base_weight (mret a : St.M (state R rng) A).
Proof. by intros s. Qed.

Lemma keeps_raise {A : Type} (e : exn) :
  keeps_base_weight (St.raise e : St.M (state R rng) A).
Proof. by intros s. Qed.

Lemma keeps_local {A : Type} (var : string) (v : option A) :
  keeps_base_weight (St.local var v : St.M (state R rng) A).
Proof. by destruct v; intros s. Qed.

Lemma keeps_get_module : keeps_base_weight (get_module : St.M (state R rng) _).
Proof. by intros s. Qed.

Lemma keeps_set_lora_A (a : matrix R) :
  keeps_base_weight (set_lora_A a : St.M (state R rng) _).
Proof. by intros s. Qed.

Lemma keeps_set_lora_B (b : matrix R) :
  keeps_base_weight (set_lora_B b : St.M (state R rng) _).
Proof. by intros s. Qed.

Lemma keeps_set_magnitude (v : option (vector R)) :
  keeps_base_weight (set_magnitude v : St.M (state R rng) _).
Proof. by intros s. Qed.

Lemma keeps_run_init (f : init_fn R) (M : matrix R) :
  keeps_base_weight (run_init torch_init f M).
Proof.
  intros s. destruct (run_init_frame torch_init f M s) as (M' & g' & ->). done.
Qed.

Lemma keeps_run_svd_lowrank (M : matrix R) (q niter : nat) :
  keeps_base_weight (run_svd_lowrank svd_lowrank M q niter).
Proof.
  intros s. unfold run_svd_lowrank.
  by destruct (svd_lowrank M q niter (generator s)) as [usv g'].
Qed.

Lemma keeps_lora_A_init init_config a_dim :
  keeps_base_weight (lora_A_init init_config a_dim : St.M (state R rng) _).
Proof.
  unfold lora_A_init. cbv zeta.
  repeat match goal with
         | |- keeps_base_weight (if ?b then _ else _) => destruct b
         end; by intros s.
Qed.

Lemma keeps_lora_B_init init_config b_dim :
  keeps_base_weight (lora_B_init init_config b_dim : St.M (state R rng) _).
Proof.
  unfold lora_B_init. cbv zeta.
  repeat match goal with
         | |- keeps_base_weight (if ?b then _ else _) => destruct b
         end; by intros s.
Qed.

End InitializeFrame.

Ltac keeps_step :=
  match goal with
  | |- keeps_base_weight (_ ≫= _) => apply keeps_bind; [|intros ?]
  | |- keeps_base_weight (mret _) => apply keeps_ret
  | |- keeps_base_weight (St.raise _) => apply keeps_raise
  | |- keeps_base_weight (St.local _ _) => apply keeps_local
  | |- keeps_base_weight get_module => apply keeps_get_module
  | |- keeps_base_weight (set_lora_A _) => apply keeps_set_lora_A
  | |- keeps_base_weight (set_lora_B _) => apply keeps_set_lora_B
  | |- keeps_base_weight (set_magnitude _) => apply keeps_set_magnitude
  | |- keeps_base_weight (run_init _ _ _) => apply keeps_run_init
  | |- keeps_base_weight (run_svd_lowrank _ _ _ _) => apply keeps_run_svd_lowrank
  | |- keeps_base_weight (lora_A_init _ _) => apply keeps_lora_A_init
  | |- keeps_base_weight (lora_B_init _ _) => apply keeps_lora_B_init
  | |- keeps_base_weight (if ?b then _ else _) => destruct b
  | |- keeps_base_weight (match ?x with _ => _ end) => destruct x
  end.

Section ReinitFrame.

Context {R : Type} `{!Scalar R} {rng : Type}.
Context (torch_init : init_fn R -> matrix R -> rng -> matrix R * rng).
Context (svd_lowrank :
  matrix R -> nat -> nat -> rng -> (matrix R * vector R * matrix R) * rng).

Implicit Types (s : state R rng) (init_config : InitConfig R) (peft_conf : PeftConfig R).

Lemma initialize_frame (name : string) init_config peft_conf
    (named_grads : option (gmap string (matrix R))) :
  keeps_base_weight
    (initialize torch_init svd_lowrank name init_config peft_conf named_grads).
Proof.
  unfold initialize, init_simple, init_svd, init_gradient, gradient_direction,
    gradient_scale.
  cbv zeta. repeat keeps_step.
Qed.

(** X18: the three initialisation branches never write the base weight or
    the scaling of the layer, in any mode and whether they return or
    raise; only the final block changes the weight. *)
Theorem initialize_keeps_weight (name : string) init_config peft_conf
    (named_grads : option (gmap string (matrix R))) s :
  weight (module (initialize torch_init svd_lowrank name init_config peft_conf
                    named_grads s).2) = weight (module s) /\
  scaling (module (initialize torch_init svd_lowrank name init_config peft_conf
                     named_grads s).2) = scaling (module s).
Proof. apply initialize_frame. Qed.

Lemma reinit_lora_modules_lora_one_frame (name : string) init_config peft_conf
    (named_grads : option (gmap string (matrix R))) :
  direction init_config = "LoRA-One" ->
  keeps_base_weight
    (reinit_lora_modules torch_init svd_lowrank name init_config peft_conf named_grads).
Proof.
  intros Hdir. unfold reinit_lora_modules. apply keeps_bind; [apply initialize_frame|].
  intros _. unfold finalize, cast_factors, subtract_offset. rewrite Hdir.
  change (String.eqb "LoRA-One" "LoRA-One") with true. cbv iota.
  repeat keeps_step.
Qed.

Lemma reinit_lora_loop_lora_one init_config peft_conf
    (named_grads : option (gmap string (matrix R)))
    (named_modules : list (string * option (LoraLinear R))) (g : rng) :
  direction init_config = "LoRA-One" ->
  base_weights
    (reinit_lora_loop torch_init svd_lowrank init_config peft_conf named_grads
       named_modules g).2.1 = base_weights named_modules.
Proof.
  intros Hdir. revert g.
  induction named_modules as [|[name [layer|]] rest IH]; intros g; simpl; [done| |].
  - pose proof (reinit_lora_modules_lora_one_frame name init_config peft_conf
                  named_grads Hdir {| module := layer; generator := g |}) as [Hw _].
    destruct (reinit_lora_modules _ _ _ _ _ _ _) as [[u|e] s']; cbn in Hw.
    + specialize (IH (generator s')).
      destruct (reinit_lora_loop _ _ _ _ _ rest _) as [r [rest' g']].
      cbn in *. by rewrite Hw, IH.
    + cbn. by rewrite Hw.
  - specialize (IH g).
    destruct (reinit_lora_loop _ _ _ _ _ rest _) as [r [rest' g']].
    cbn in *. by rewrite IH.
Qed.

(** X19: with the direction [LoRA-One], [reinit_lora] leaves the base
    weight of every layer of the model as it is, in every mode and whether
    the loop completes or a layer raises; no module is added, dropped or
    moved. *)
Theorem reinit_lora_lora_one_keeps_base_weights
    (model : list (string * option (LoraLinear R))) init_config peft_conf
    (named_grads : option (gmap string (matrix R))) (g : rng) :
  direction init_config = "LoRA-One" ->
  base_weights (reinit_lora torch_init svd_lowrank model init_config peft_conf
                  named_grads g).2.1 = base_weights model.
Proof.
  intros Hdir.
  pose proof (reinit_lora_loop_lora_one init_config peft_conf named_grads model g Hdir)
    as Hloop.
  unfold reinit_lora.
  by destruct (reinit_lora_loop _ _ _ _ _ model g) as [[u|e] [model' g']].
Qed.

(** X20: in gradient mode without the keyword argument [named_grads], or
    without an entry for the layer in it, the call raises [KeyError] on
    the missing key and leaves the layer and the random generator as they
    are. *)
Theorem gradient_mode_missing_gradient (name : string) init_config peft_conf
    (named_grads : option (gmap string (matrix R))) s :
  mode init_config = "gradient" ->
  named_grads ≫= (fun d => d !! grad_name_of name) = None ->
  reinit_lora_modules torch_init svd_lowrank name init_config peft_conf named_grads s
    = (Raised (KeyError (match named_grads with
                         | None => "named_grads"
                         | Some _ => grad_name_of name
                         end)), s).
Proof.
  intros Hmode Hmiss. unfold reinit_lora_modules. apply bind_raised.
  unfold initialize. erewrite bind_returned by reflexivity.
  cbv zeta. rewrite Hmode. cbn [String.eqb Ascii.eqb Bool.eqb]. cbv iota.
  unfold init_gradient. destruct named_grads as [d|]; cbn in Hmiss.
  - erewrite bind_returned by reflexivity. cbv zeta. rewrite Hmiss.
    by apply bind_raised.
  - by apply bind_raised.
Qed.

(** X21: in gradient mode with a direction other than [LoRA-One] and
    [LoRA-GA] neither [B] nor [A] is assigned: the call raises
    [UnboundLocalError], on [A] with the scale [gd] and on [B] otherwise,
    and the layer is as before the call. *)
Theorem gradient_mode_unknown_direction (name : string) init_config peft_conf
    (d : gmap string (matrix R)) (grads : matrix R) s :
  mode init_config = "gradient" ->
  direction init_config <> "LoRA-One" ->
  direction init_config <> "LoRA-GA" ->
  scale init_config <> "weightS" ->
  d !! grad_name_of name = Some grads ->
  exists s',
    reinit_lora_modules torch_init svd_lowrank name init_config peft_conf (Some d) s
      = (Raised (UnboundLocalError
                   (if String.eqb (scale init_config) "gd" then "A" else "B")), s') /\
    module s' = module s.
Proof.
  intros Hmode Hone Hga Hscale Hgrads.
  apply String.eqb_neq in Hone, Hga, Hscale.
  unfold reinit_lora_modules.
  assert (exists s',
            initialize torch_init svd_lowrank name init_config peft_conf (Some d) s
              = (Raised (UnboundLocalError
                           (if String.eqb (scale init_config) "gd" then "A" else "B")), s')
            /\ module s' = module s) as (s' & Hinit & Hmod).
  2:{ exists s'. split; [by apply bind_raised|done]. }
  unfold initialize. erewrite bind_returned by reflexivity.
  cbv zeta. rewrite Hmode. cbn [String.eqb Ascii.eqb Bool.eqb]. cbv iota.
  unfold init_gradient, gradient_direction, gradient_scale, run_svd_lowrank.
  rewrite Hone, Hga, Hscale. destruct s as [md g]. st_run. rewrite Hgrads. st_run.
  destruct (svd_lowrank _ _ _ g) as [[[U S_] V] g']. st_run.
  destruct (String.eqb (scale init_config) "gd"); [st_run; eauto|].
  destruct (String.eqb (scale init_config) "unit").
  { destruct (dora peft_conf); st_run; eauto. }
  destruct (String.eqb (scale init_config) "stable").
  { destruct (shape grads). st_run. eauto. }
  destruct (dora peft_conf); st_run; eauto.
Qed.

(** X22: a mode other than [simple], [svd] and [gradient] is not
    rejected: the call skips the initialisation and runs the final block
    on the factors the layer already has. *)
Theorem unknown_mode_runs_final_block (name : string) init_config peft_conf
    (named_grads : option (gmap string (matrix R))) s :
  mode init_config <> "simple" ->
  mode init_config <> "svd" ->
  mode init_config <> "gradient" ->
  reinit_lora_modules torch_init svd_lowrank name init_config peft_conf named_grads s
    = finalize init_config peft_conf s.
Proof.
  intros H1 H2 H3. apply String.eqb_neq in H1, H2, H3.
  unfold reinit_lora_modules, initialize.
  erewrite bind_returned; [reflexivity|].
  erewrite bind_returned by reflexivity. cbv zeta. by rewrite H1, H2, H3.
Qed.

Lemma reinit_lora_loop_failure init_config peft_conf
    (named_grads : option (gmap string (matrix R)))
    (pre post pre' : list (string * option (LoraLinear R)))
    (name : string) (layer : LoraLinear R) (g g1 : rng) (e : exn) s' :
  reinit_lora_loop torch_init svd_lowrank init_config peft_conf named_grads pre g
    = (Returned tt, (pre', g1)) ->
  reinit_lora_modules torch_init svd_lowrank name init_config peft_conf named_grads
    {| module := layer; generator := g1 |} = (Raised e, s') ->
  reinit_lora_loop torch_init svd_lowrank init_config peft_conf named_grads
    (pre ++ (name, Some layer) :: post) g
    = (Raised e, (pre' ++ (name, Some (module s')) :: post, generator s')).
Proof.
  intros Hpre Hfail. revert g pre' Hpre.
  induction pre as [|[n [l|]] pre IH]; intros g pre' Hpre; simpl in *.
  - injection Hpre as <- <-. simpl. by rewrite Hfail.
  - destruct (reinit_lora_modules _ _ n _ _ _ _) as [[u|e0] s0]; [|done].
    destruct (reinit_lora_loop _ _ _ _ _ pre _) as [r [rest' g']] eqn:Hrest.
    injection Hpre as -> <- <-. by rewrite (IH _ _ Hrest).
  - destruct (reinit_lora_loop _ _ _ _ _ pre _) as [r [rest' g']] eqn:Hrest.
    injection Hpre as -> <- <-. by rewrite (IH _ _ Hrest).
Qed.

(** X23: [reinit_lora] stops at the first layer on which
    [reinit_lora_modules] raises: the layers before it stay re-initialised,
    the failing layer is left as the call left it, and the modules after
    it are not touched. *)
Theorem reinit_lora_stops_at_first_failure init_config peft_conf
    (named_grads : option (gmap string (matrix R)))
    (pre post pre' : list (string * option (LoraLinear R)))
    (name : string) (layer : LoraLinear R) (g g1 : rng) (e : exn) s' :
  reinit_lora torch_init svd_lowrank pre init_config peft_conf named_grads g
    = (Returned pre', (pre', g1)) ->
  reinit_lora_modules torch_init svd_lowrank name init_config peft_conf named_grads
    {| module := layer; generator := g1 |} = (Raised e, s') ->
  reinit_lora torch_init svd_lowrank (pre ++ (name, Some layer) :: post) init_config
    peft_conf named_grads g
    = (Raised e, (pre' ++ (name, Some (module s')) :: post, generator s')).
Proof.
  intros Hpre Hfail. unfold reinit_lora in *.
  destruct (reinit_lora_loop _ _ _ _ _ pre g) as [[[]|e0] [m g0]] eqn:Hloop; [|done].
  simplify_eq.
  by rewrite (reinit_lora_loop_failure _ _ _ _ _ _ _ _ _ _ _ _ Hloop Hfail).
Qed.

End ReinitFrame.

Lemma reinit_lora_lora_one_keeps_base_weights_witness :
  base_weights
    (reinit_lora IntLayer.torch_init IntLayer.svd_lowrank
       [("base_model.model.layer", None);
        (IntLayer.name, Some (module IntLayer.layer))]
       (IntLayer.config "gradient" "kaiming" "zeros" "gd" "LoRA-One")
       IntLayer.peft_conf (Some IntLayer.grads) tt).2.1
  = [("base_model.model.layer", None);
     (IntLayer.name, Some [[5; 6]; [7; 8]]%Z)].
Proof.
  exact (reinit_lora_lora_one_keeps_base_weights IntLayer.torch_init
           IntLayer.svd_lowrank
           [("base_model.model.layer", None);
            (IntLayer.name, Some (module IntLayer.layer))]
           (IntLayer.config "gradient" "kaiming" "zeros" "gd" "LoRA-One")
           IntLayer.peft_conf (Some IntLayer.grads) tt eq_refl).
Defined.

Lemma gradient_mode_missing_gradient_witness :
  reinit_lora_modules IntLayer.torch_init IntLayer.svd_lowrank "q_proj"
    (IntLayer.config "gradient" "kaiming" "zeros" "gd" "LoRA-One")
    IntLayer.peft_conf (Some IntLayer.grads) IntLayer.layer
  = (Raised (KeyError ".weight"), IntLayer.layer).
Proof.
  apply (gradient_mode_missing_gradient IntLayer.torch_init IntLayer.svd_lowrank
           "q_proj" (IntLayer.config "gradient" "kaiming" "zeros" "gd" "LoRA-One")
           IntLayer.peft_conf (Some IntLayer.grads) IntLayer.layer).
  - reflexivity.
  - vm_compute. reflexivity.
Defined.

Lemma gradient_mode_unknown_direction_witness :
  exists s',
    reinit_lora_modules IntLayer.torch_init IntLayer.svd_lowrank IntLayer.name
      (IntLayer.config "gradient" "kaiming" "zeros" "unit" "LoRA-Pro")
      IntLayer.peft_conf (Some IntLayer.grads) IntLayer.layer
    = (Raised (UnboundLocalError "B"), s') /\
    module s' = module IntLayer.layer.
Proof.
  apply (gradient_mode_unknown_direction IntLayer.torch_init IntLayer.svd_lowrank
           IntLayer.name
           (IntLayer.config "gradient" "kaiming" "zeros" "unit" "LoRA-Pro")
           IntLayer.peft_conf IntLayer.grads [[2; 0]; [0; 1]]%Z IntLayer.layer).
  - reflexivity.
  - simpl. discriminate.
  - simpl. discriminate.
  - simpl. discriminate.
  - vm_compute. reflexivity.
Defined.

Lemma unknown_mode_runs_final_block_witness :
  reinit_lora_modules IntLayer.torch_init IntLayer.svd_lowrank IntLayer.name
    (IntLayer.config "lora" "kaiming" "zeros" "default" "LoRA-GA")
    IntLayer.peft_conf None IntLayer.trained_layer
  = finalize (IntLayer.config "lora" "kaiming" "zeros" "default" "LoRA-GA")
      IntLayer.peft_conf IntLayer.trained_layer.
Proof.
  apply (unknown_mode_runs_final_block IntLayer.torch_init IntLayer.svd_lowrank);
    simpl; discriminate.
Defined.

Lemma reinit_lora_stops_at_first_failure_witness :
  reinit_lora IntLayer.torch_init IntLayer.svd_lowrank
    ([("base_model.model.layer", None)]
     ++ (IntLayer.name, Some (module IntLayer.layer))
     :: [("base_model.model.layer.k_proj", Some (module IntLayer.trained_layer))])
    (IntLayer.config "gradient" "kaiming" "zeros" "gd" "LoRA-One")
    IntLayer.peft_conf None tt
  = (Raised (KeyError "named_grads"),
     ([("base_model.model.layer", None)]
      ++ (IntLayer.name, Some (module IntLayer.layer))
      :: [("base_model.model.layer.k_proj", Some (module IntLayer.trained_layer))],
      tt)).
Proof.
  apply (reinit_lora_stops_at_first_failure IntLayer.torch_init IntLayer.svd_lowrank
           (IntLayer.config "gradient" "kaiming" "zeros" "gd" "LoRA-One")
           IntLayer.peft_conf None [("base_model.model.layer", None)]
           [("base_model.model.layer.k_proj", Some (module IntLayer.trained_layer))]
           [("base_model.model.layer", None)] IntLayer.name
           (module IntLayer.layer) tt tt (KeyError "named_grads") IntLayer.layer).
  - reflexivity.
  - reflexivity.
Defined.
